(** * SublimeLinter3: the checker dispatch and diagnostic-extraction engine

    A shallow embedding of [lint/linter.py] (class [Linter]) and the
    properties of its extraction, column correction, assignment and run
    orchestration code.

    Python objects are modelled as follows.
    - [str] is [string]; a character is a code point below 256.
    - [int] is [Z] (Python integers are unbounded).
    - [dict] is [gmap]; a dict that the code shares and mutates in place
      (the class attribute [defaults]) lives in a store of dict objects and
      is referred to by its location.
    - An exception is a constructor of [exn]; a function that may raise
      returns a [result], and a method that also changes objects is a
      function from the world to a result and the new world. *)

From Stdlib Require Import ZArith Ascii String List Bool Lia.
From stdpp Require Import gmap strings list fin_maps.

Local Open Scope string_scope.
Local Open Scope Z_scope.

(** ** Python values, truthiness and exceptions *)

Module Py.

Inductive exn : Type :=
| NotImplementedError
| AttributeError
| TypeError
| ValueError
| KeyError.

Inductive result (A : Type) : Type :=
| Ok (a : A)
| Raise (e : exn).
Arguments Ok {A} a.
Arguments Raise {A} e.

Definition rbind {A B} (r : result A) (k : A → result B) : result B :=
  match r with
  | Ok a => k a
  | Raise e => Raise e
  end.

(** The values that flow through the match tuple and the settings. *)
Inductive value : Type :=
| VNone
| VBool (b : bool)
| VInt (z : Z)
| VStr (s : string).

Global Instance value_eq_dec : EqDecision value.
Proof. solve_decision. Defined.

(** [bool(v)] *)
Definition truthy (v : value) : bool :=
  match v with
  | VNone => false
  | VBool b => b
  | VInt z => negb (z =? 0)
  | VStr s => negb (String.eqb s "")
  end.

(** [bool(s)] for a [str] *)
Definition str_truthy (s : string) : bool := negb (String.eqb s "").

(** [str(v)] *)
Definition nat_digit (n : nat) : ascii := ascii_of_nat (48 + n).

Fixpoint pos_digits (fuel : nat) (n : nat) (acc : string) : string :=
  match fuel with
  | O => acc
  | S fuel' =>
      let acc' := String (nat_digit (n mod 10)) acc in
      if (n / 10 =? 0)%nat then acc' else pos_digits fuel' (n / 10) acc'
  end.

Definition str_of_Z (z : Z) : string :=
  let n := Z.to_nat (Z.abs z) in
  let d := pos_digits (S n) n "" in
  if z <? 0 then String "-" d else d.

Definition str (v : value) : string :=
  match v with
  | VNone => "None"
  | VBool true => "True"
  | VBool false => "False"
  | VInt z => str_of_Z z
  | VStr s => s
  end.

(** *** Characters *)

(** [ord(c)] *)
Definition ord (c : ascii) : nat := nat_of_ascii c.

Definition tab : ascii := "009".
Definition LF : ascii := "010".
Definition CR : ascii := "013".

Definition in_range (lo hi : nat) (c : ascii) : bool :=
  ((lo <=? ord c)%nat && (ord c <=? hi)%nat)%bool.

Definition is_digit (c : ascii) : bool := in_range 48 57 c.

(** [c.isspace()] for a code point below 256 *)
Definition is_space (c : ascii) : bool :=
  (in_range 9 13 c || in_range 28 32 c
   || (ord c =? 133)%nat || (ord c =? 160)%nat)%bool.

(** The line boundaries of [str.splitlines] below 256, [CR] apart. *)
Definition is_linebreak (c : ascii) : bool :=
  ((ord c =? 10)%nat || in_range 11 12 c || in_range 28 30 c
   || (ord c =? 133)%nat)%bool.

(** [c.lower()]: the upper-case letters below 256 are A-Z, and 192-222
    without the multiplication sign 215. *)
Definition lower_char (c : ascii) : ascii :=
  if (in_range 65 90 c
      || (in_range 192 222 c && negb (ord c =? 215)%nat))%bool
  then ascii_of_nat (ord c + 32)
  else c.

(** *** Strings *)

Fixpoint lower (s : string) : string :=
  match s with
  | EmptyString => EmptyString
  | String c r => String (lower_char c) (lower r)
  end.

Fixpoint lstrip (s : string) : string :=
  match s with
  | EmptyString => EmptyString
  | String c r => if is_space c then lstrip r else s
  end.

Definition rstrip (s : string) : string :=
  String.rev (lstrip (String.rev s)).

(** [s.strip()] *)
Definition strip (s : string) : string := rstrip (lstrip s).

(** [s.splitlines()]; [cur] is the current line, reversed. *)
Fixpoint splitlines_go (cur : string) (s : string) : list string :=
  match s with
  | EmptyString =>
      match cur with
      | EmptyString => []
      | _ => [String.rev cur]
      end
  | String c r =>
      if Ascii.eqb c CR then
        match r with
        | String c' r' =>
            if Ascii.eqb c' LF
            then String.rev cur :: splitlines_go EmptyString r'
            else String.rev cur :: splitlines_go EmptyString r
        | EmptyString => String.rev cur :: splitlines_go EmptyString r
        end
      else if is_linebreak c then String.rev cur :: splitlines_go EmptyString r
      else splitlines_go (String c cur) r
  end.

Definition splitlines (s : string) : list string :=
  splitlines_go EmptyString s.

Definition len (s : string) : Z := Z.of_nat (String.length s).

(** A slice bound, as [PySlice_AdjustIndices] clamps it (step 1). *)
Definition clamp (n i : Z) : Z :=
  if i <? 0 then Z.max 0 (i + n) else Z.min i n.

(** [s[a:b]] *)
Definition slice (s : string) (a b : Z) : string :=
  let a' := clamp (len s) a in
  let b' := clamp (len s) b in
  substring (Z.to_nat a') (Z.to_nat (b' - a')) s.

(** The white space that [int] strips. [int] turns the white space above
    code point 127 into spaces and then skips the ASCII white space at
    both ends: 9 to 13 and 32, and of the code points from 128 to 255 the
    white space 133 and 160. The separators 28 to 31, which [str.isspace]
    has, are not skipped: [int] raises [ValueError] on them. *)
Definition is_int_space (c : ascii) : bool :=
  (in_range 9 13 c || (ord c =? 32)%nat
   || (ord c =? 133)%nat || (ord c =? 160)%nat)%bool.

Fixpoint int_lstrip (s : string) : string :=
  match s with
  | EmptyString => EmptyString
  | String c r => if is_int_space c then int_lstrip r else s
  end.

Definition int_strip (s : string) : string :=
  String.rev (int_lstrip (String.rev (int_lstrip s))).

(** [int(s)] for a [str], as the plugin host's Python 3.3 reads it:
    white space at both ends, an optional sign, then decimal digits
    (Python 3.6 and later also read an underscore between two digits). *)
Fixpoint digits_value (acc : Z) (s : string) : option Z :=
  match s with
  | EmptyString => Some acc
  | String c r =>
      if is_digit c
      then digits_value (10 * acc + (Z.of_nat (ord c) - 48)) r
      else None
  end.

Definition unsigned_value (s : string) : option Z :=
  match s with
  | EmptyString => None
  | _ => digits_value 0 s
  end.

Definition int_of_str (s : string) : option Z :=
  match int_strip s with
  | String "+" r => unsigned_value r
  | String "-" r => Z.opp <$> unsigned_value r
  | r => unsigned_value r
  end.

(** [int(v)] *)
Definition int (v : value) : result Z :=
  match v with
  | VNone => Raise TypeError
  | VBool b => Ok (if b then 1 else 0)
  | VInt z => Ok z
  | VStr s =>
      match int_of_str s with
      | Some z => Ok z
      | None => Raise ValueError
      end
  end.

End Py.
Import Py.

Global Instance result_ret : MRet result := @Ok.
Global Instance result_bind : MBind result := λ A B k r, rbind r k.

(** ** Regular expressions: what [re] hands to the linter *)

(** A match object: its span and [groupdict()], which has an entry for
    every named group of the pattern, [None] for a group that took no part
    in the match. A match object is always true. *)
Record Match := {
  span : Z * Z;
  groupdict : gmap string (option string);
}.

(** A compiled pattern object, through the two methods the linter calls.
    [finditer] gives the non-overlapping matches from left to right. *)
Record Pattern := {
  finditer : string → list Match;
  re_match : string → option Match;
}.

(** [re.MULTILINE] *)
Definition MULTILINE : Z := 8.

(** The attribute [self.regex]: the pattern text of the class, or the
    compiled pattern once [__init__] has replaced it. *)
Inductive RegexAttr : Type :=
| ReStr (s : string)
| RePat (p : Pattern).

Definition regex_truthy (r : RegexAttr) : bool :=
  match r with
  | ReStr s => str_truthy s
  | RePat _ => true
  end.

(** The iterator that [finditer] returns has neither [__bool__] nor
    [__len__]: it is true whatever it will produce. *)
Definition iterator_truthy {A} (it : list A) : bool := true.

(** The tuple [(match, row, col, error_type, error, near)]. *)
Record RawMatch := mkRaw {
  rm_match : option Match;
  rm_row : option Z;
  rm_col : value;
  rm_type : value;
  rm_error : value;
  rm_near : value;
}.

(** A generator: what it yields, and how it ends. *)
Inductive gen (A : Type) : Type :=
| Stop
| Yield (a : A) (rest : gen A)
| Throw (e : exn).
Arguments Stop {A}.
Arguments Yield {A} a rest.
Arguments Throw {A} e.

Fixpoint yielded {A} (g : gen A) : list A :=
  match g with
  | Yield a rest => a :: yielded rest
  | _ => []
  end.

Fixpoint thrown {A} (g : gen A) : option exn :=
  match g with
  | Stop => None
  | Yield _ rest => thrown rest
  | Throw e => Some e
  end.

(** [for x in l: yield f(x)] *)
Fixpoint yield_each {A B} (f : A → result B) (l : list A) : gen B :=
  match l with
  | [] => Stop
  | a :: l' =>
      match f a with
      | Ok b => Yield b (yield_each f l')
      | Raise e => Throw e
      end
  end.

(** *** [Linter.split_match] *)

Definition group_value (g : option string) : value :=
  match g with
  | Some s => VStr s
  | None => VNone
  end.

(** [d.update(other)] *)
Definition update {V} (d other : gmap string V) : gmap string V := other ∪ d.

(** [d[k]] *)
Definition getitem {V} (d : gmap string V) (k : string) : result V :=
  match d !! k with
  | Some v => Ok v
  | None => Raise KeyError
  end.

Definition default_items : gmap string value :=
  <["line" := VNone]> (<["col" := VNone]> (<["type" := VNone]>
    (<["error" := VStr ""]> (<["near" := VNone]> ∅)))).

Definition split_match (m : option Match) : result RawMatch :=
  match m with
  | Some mo =>
      let items := update default_items (group_value <$> groupdict mo) in
      row ← getitem items "line";
      col ← getitem items "col";
      error_type ← getitem items "type";
      error ← getitem items "error";
      near ← getitem items "near";
      row ← int row;
      let row := row - 1 in
      col ← (if truthy col then c ← int col; Ok (VInt (c - 1)) else Ok col);
      Ok (mkRaw m (Some row) col error_type error near)
  | None => Ok (mkRaw m None VNone VNone (VStr "") VNone)
  end.

(** *** [Linter.match_error] and [Linter.find_errors] *)

(** [r.match(line)]: a [str] has no method [match]. *)
Definition match_error (r : RegexAttr) (line : string) : result RawMatch :=
  match r with
  | RePat p => split_match (re_match p line)
  | ReStr _ => Raise AttributeError
  end.

Definition find_errors (multiline : bool) (regex : RegexAttr)
    (output : string) : gen RawMatch :=
  if multiline then
    match regex with
    | RePat p =>
        let errors := finditer p output in
        if iterator_truthy errors
        then yield_each (λ error, split_match (Some error)) errors
        else yield_each split_match [None]
    | ReStr _ => Throw AttributeError
    end
  else
    yield_each (λ line, match_error regex (strip line)) (splitlines output).

(** ** Column correction: the tab loop of [Linter.lint] *)

(** [col - diff], for the values [col] can hold. *)
Definition minus (col : value) (diff : Z) : result Z :=
  match col with
  | VInt c => Ok (c - diff)
  | VBool b => Ok ((if b then 1 else 0) - diff)
  | _ => Raise TypeError
  end.

(** The loop [for i in range(len(code_line))], from index [i] on, over
    the rest of the line. *)
Fixpoint tab_loop (tab_width : Z) (code_line : string) (i diff : Z)
    (col : value) : result value :=
  match code_line with
  | EmptyString => Ok col
  | String c rest =>
      let diff := if Ascii.eqb c tab then diff + (tab_width - 1) else diff in
      d ← minus col diff;
      if d <=? i then Ok (VInt i) else tab_loop tab_width rest (i + 1) diff col
  end.

(** The column handed to [highlight.range], given the text of the line. *)
Definition correct_column (tab_width : Z) (code_line : string)
    (col : value) : result value :=
  if 1 <? tab_width then tab_loop tab_width code_line 0 0 col else Ok col.

(** ** [Linter.linter_can_lint] *)

(** The class attribute [language]: a string, or a tuple or list of them. *)
Inductive Lang : Type :=
| LangStr (s : string)
| LangSeq (l : list string).

Definition lang_truthy (l : Lang) : bool :=
  match l with
  | LangStr s => str_truthy s
  | LangSeq l => negb (bool_decide (l = []))
  end.

(** [language == cls.language]: a [str] never equals a tuple or a list. *)
Definition str_eq_lang (language : string) (l : Lang) : bool :=
  match l with
  | LangStr s => bool_decide (language = s)
  | LangSeq _ => false
  end.

(** [isinstance(cls.language, (tuple, list))] *)
Definition is_seq (l : Lang) : bool :=
  match l with
  | LangStr _ => false
  | LangSeq _ => true
  end.

(** [language in cls.language], for a tuple or list *)
Definition seq_contains (language : string) (l : Lang) : bool :=
  match l with
  | LangStr _ => false
  | LangSeq l => bool_decide (language ∈ l)
  end.

Definition linter_can_lint (cls_language : Lang) (language : string) : bool :=
  let language := lower language in
  if lang_truthy cls_language then
    if str_eq_lang language cls_language then true
    else if is_seq cls_language && seq_contains language cls_language then true
    else false
  else false.

(** ** The objects: highlights, views, linter classes and instances *)

(** [Highlight] is defined in another module of the package; here it is the
    accumulator of the calls made on it. [hl_args] holds the arguments of
    the constructor, [None] for [Highlight()]. *)
Inductive hl_call : Type :=
| MoveTo (line_offset left : Z)
| Range (row : Z) (col : value)
| Near (row : Z) (near : value)
| Line (row : Z).

Record Highlight := {
  hl_args : option (string * bool);
  hl_calls : list hl_call;
}.

Definition hl_call_on (h : Highlight) (c : hl_call) : Highlight :=
  {| hl_args := hl_args h; hl_calls := (hl_calls h ++ [c])%list |}.

(** A view of the editor: [view.id()], [view.settings().get('syntax')]
    and [view.file_name()]. *)
Record View := {
  view_id : Z;
  view_syntax : option string;
  view_file_name : option string;
}.

(** What a command is once evaluated: [None], a string, or a tuple or list
    of strings. *)
Inductive CmdVal : Type :=
| CmdNone
| CmdStr (s : string)
| CmdSeq (l : list string).

(** The class attribute [cmd]. A callable is called as [self.cmd()]; it is
    taken to read the instance's code and file name and to change nothing. *)
Inductive Cmd : Type :=
| CmdStatic (c : CmdVal)
| CmdCallable (f : option string → option string → CmdVal).

Definition cmdval_truthy (c : CmdVal) : bool :=
  match c with
  | CmdNone => false
  | CmdStr s => str_truthy s
  | CmdSeq l => negb (bool_decide (l = []))
  end.

(** [if not isinstance(cmd, (tuple, list)): cmd = (cmd,)] *)
Definition as_tuple (c : CmdVal) : list string :=
  match c with
  | CmdSeq l => l
  | CmdStr s => [s]
  | CmdNone => []
  end.

Definition cmd_truthy (c : Cmd) : bool :=
  match c with
  | CmdStatic c => cmdval_truthy c
  | CmdCallable _ => true
  end.

(** A subclass of [Linter]: its class attributes. [defaults] is [None] or
    a reference to a dict object. *)
Record LinterClass := {
  name : string;
  language : Lang;
  cmd : Cmd;
  regex : string;
  multiline : bool;
  re_flags : Z;
  tempfile_suffix : option string;
  tab_width : Z;
  selector : option string;
  outline : bool;
  defaults : option nat;
}.

(** [cls.can_lint(language)] *)
Definition can_lint (c : LinterClass) (lang : string) : bool :=
  linter_can_lint (language c) lang.

(** [self.errors]: line -> list of [(col, message)] *)
Abbreviation Errors := (gmap Z (list (value * string))).

(** An instance. [self_regex] and [self_re_flags] are the instance
    attributes that shadow the class's once [__init__] sets them; [errors]
    is [None] until [reset], and [code] is not set until [reset]. *)
Record Linter := {
  cls : LinterClass;
  view : View;
  syntax : string;
  filename : option string;
  self_regex : RegexAttr;
  self_re_flags : Z;
  highlight : Highlight;
  errors : option Errors;
  code : option string;
}.

Definition set_highlight (h : Highlight) (l : Linter) : Linter :=
  {| cls := cls l; view := view l; syntax := syntax l; filename := filename l;
     self_regex := self_regex l; self_re_flags := self_re_flags l;
     highlight := h; errors := errors l; code := code l |}.

Definition set_errors (e : option Errors) (l : Linter) : Linter :=
  {| cls := cls l; view := view l; syntax := syntax l; filename := filename l;
     self_regex := self_regex l; self_re_flags := self_re_flags l;
     highlight := highlight l; errors := e; code := code l |}.

Definition set_code (c : option string) (l : Linter) : Linter :=
  {| cls := cls l; view := view l; syntax := syntax l; filename := filename l;
     self_regex := self_regex l; self_re_flags := self_re_flags l;
     highlight := highlight l; errors := errors l; code := c |}.

Definition set_filename (f : option string) (l : Linter) : Linter :=
  {| cls := cls l; view := view l; syntax := syntax l; filename := f;
     self_regex := self_regex l; self_re_flags := self_re_flags l;
     highlight := highlight l; errors := errors l; code := code l |}.

(** ** The world: the module [persist], the objects and what was done *)

Inductive Event : Type :=
| DebugCompile (language : Lang)
| DebugLint (filename : string) (names : list string)
| DebugOutput (class_name : string) (output : string)
| Communicate (cmd : list string) (code : string)
| Tmpfile (cmd : list string) (code : string) (suffix : string)
| HighlightClear (h : Highlight) (vid : Z) (pre : string)
| Callback (v : option View) (linters : list nat).

(** [settings_linters] is [persist.settings.get('linters', {})], then
    [persist.languages], [persist.views] and [persist.linters]; a set of
    linter objects is the set of their identities. [dicts] and [objects]
    are the stores of dict objects and of linter instances, with the next
    free identity of each. [events] lists the calls that leave the module,
    in the order they were made. *)
Record World := {
  settings_linters : gmap string (gmap string value);
  languages : gmap string LinterClass;
  views : gmap Z View;
  linters : gmap Z (gset nat);
  dicts : gmap nat (gmap string value);
  next_dict : nat;
  objects : gmap nat Linter;
  next_object : nat;
  events : list Event;
}.

Definition with_settings (u : gmap string (gmap string value)) (w : World) : World :=
  {| settings_linters := u; languages := languages w;
     views := views w; linters := linters w; dicts := dicts w;
     next_dict := next_dict w; objects := objects w;
     next_object := next_object w; events := events w |}.

Definition with_views (f : gmap Z View → gmap Z View) (w : World) : World :=
  {| settings_linters := settings_linters w; languages := languages w;
     views := f (views w); linters := linters w; dicts := dicts w;
     next_dict := next_dict w; objects := objects w;
     next_object := next_object w; events := events w |}.

Definition with_linters (f : gmap Z (gset nat) → gmap Z (gset nat))
    (w : World) : World :=
  {| settings_linters := settings_linters w; languages := languages w;
     views := views w; linters := f (linters w); dicts := dicts w;
     next_dict := next_dict w; objects := objects w;
     next_object := next_object w; events := events w |}.

Definition with_dicts (f : gmap nat (gmap string value) → gmap nat (gmap string value))
    (n : nat) (w : World) : World :=
  {| settings_linters := settings_linters w; languages := languages w;
     views := views w; linters := linters w; dicts := f (dicts w);
     next_dict := n; objects := objects w;
     next_object := next_object w; events := events w |}.

Definition with_objects (f : gmap nat Linter → gmap nat Linter)
    (n : nat) (w : World) : World :=
  {| settings_linters := settings_linters w; languages := languages w;
     views := views w; linters := linters w; dicts := dicts w;
     next_dict := next_dict w; objects := f (objects w);
     next_object := n; events := events w |}.

Definition with_event (e : Event) (w : World) : World :=
  {| settings_linters := settings_linters w; languages := languages w;
     views := views w; linters := linters w; dicts := dicts w;
     next_dict := next_dict w; objects := objects w;
     next_object := next_object w; events := (events w ++ [e])%list |}.

(** A method: from the world to its result, or the exception it raises,
    and the world it leaves. *)
Definition M (A : Type) : Type := World → result A * World.

Global Instance M_ret : MRet M := λ A a w, (Ok a, w).
Global Instance M_bind : MBind M := λ A B k m w,
  match m w with
  | (Ok a, w') => k a w'
  | (Raise e, w') => (Raise e, w')
  end.

Definition raise {A} (e : exn) : M A := λ w, (Raise e, w).
Definition get_world : M World := λ w, (Ok w, w).
Definition modify (f : World → World) : M unit := λ w, (Ok (), f w).
Definition lift {A} (r : result A) : M A := λ w, (r, w).
Definition emit (e : Event) : M unit := modify (with_event e).

(** [for a in l: body(a)] *)
Fixpoint for_each {A} (l : list A) (body : A → M unit) : M unit :=
  match l with
  | [] => mret ()
  | a :: l' => body a ;; for_each l' body
  end.

(** [for a in g: body(a)], for a generator [g] *)
Fixpoint for_gen {A} (g : gen A) (body : A → M unit) : M unit :=
  match g with
  | Stop => mret ()
  | Yield a rest => body a ;; for_gen rest body
  | Throw e => raise e
  end.

(** An attribute of the object [o]; every identity in [persist.linters] is
    one of a stored object. *)
Definition get_object (o : nat) : M Linter := λ w,
  match objects w !! o with
  | Some l => (Ok l, w)
  | None => (Raise AttributeError, w)
  end.

Definition set_object (o : nat) (f : Linter → Linter) : M unit :=
  modify (λ w, with_objects (λ os, alter f o os) (next_object w) w).

(** ** What the module calls and does not define *)

(** [re.compile(pattern, flags)], [None] when it raises; the two process
    wrappers of [util]; and [Highlight.full_line], which gives the bounds
    of a line in the code. *)
Class Host := {
  re_compile : string → Z → option Pattern;
  util_communicate : list string → string → string;
  util_tmpfile : list string → string → string → string;
  full_line : Highlight → Z → Z * Z;
}.

(** [SYNTAX_RE = re.compile(r'/([^/]+)\.tmLanguage$')], through
    [SYNTAX_RE.search(s)] and [group(1)] of its match. Group 1 holds no
    slash, so the match starts at the last slash of [s]; [$] is the end of
    [s], or the place before a newline that ends [s]. *)
Fixpoint after_last_slash (s : string) : option string :=
  match s with
  | EmptyString => None
  | String c r =>
      match after_last_slash r with
      | Some t => Some t
      | None => if Ascii.eqb c "/" then Some r else None
      end
  end.

Definition chop_newline (s : string) : string :=
  match String.rev s with
  | String c r => if Ascii.eqb c LF then String.rev r else s
  | EmptyString => s
  end.

(** [s] without the suffix [suffix], when it ends with it *)
Definition strip_suffix (suffix s : string) : option string :=
  let n := (String.length s - String.length suffix)%nat in
  if ((String.length suffix <=? String.length s)%nat
      && String.eqb (substring n (String.length suffix) s) suffix)%bool
  then Some (substring 0 n s)
  else None.

Definition SYNTAX_RE_search (s : string) : option string :=
  rest ← after_last_slash s;
  g ← strip_suffix ".tmLanguage" (chop_newline rest);
  if str_truthy g then Some g else None.

Definition opt_truthy (s : option string) : bool :=
  match s with
  | Some s => str_truthy s
  | None => false
  end.

Section Linter.
Context `{Host}.

(** ** [Linter.__init__]: the new object's identity *)
Definition __init__ (c : LinterClass) (v : View) (syn : string)
    (fname : option string) : M nat :=
  let flags :=
    if (str_truthy (regex c) && multiline c)%bool
    then Z.lor (re_flags c) MULTILINE else re_flags c in
  let compiled :=
    if str_truthy (regex c) then re_compile (regex c) flags else None in
  (if (str_truthy (regex c) && negb (bool_decide (is_Some compiled)))%bool
   then emit (DebugCompile (language c)) else mret ());;
  w ← get_world;
  let o := next_object w in
  let self :=
    {| cls := c; view := v; syntax := syn; filename := fname;
       self_regex := match compiled with
                     | Some p => RePat p
                     | None => ReStr (regex c)
                     end;
       self_re_flags := flags;
       highlight := {| hl_args := None; hl_calls := [] |};
       errors := None; code := None |} in
  modify (with_objects <[o := self]> (S o));;
  mret o.

(** ** [Linter.get_settings] and the property [settings] *)

(** [{}]: a new dict object *)
Definition new_dict : M nat :=
  w ← get_world;
  let l := next_dict w in
  modify (with_dicts <[l := ∅]> (S l));;
  mret l.

(** The dict at a location. *)
Definition deref (w : World) (l : nat) : gmap string value :=
  default ∅ (dicts w !! l).

(** [cls.defaults or {}] *)
Definition defaults_or_new (c : LinterClass) : M nat :=
  w ← get_world;
  match defaults c with
  | Some l =>
      if bool_decide (deref w l = ∅) then new_dict else mret l
  | None => new_dict
  end.

Definition get_settings (c : LinterClass) : M nat :=
  w ← get_world;
  let linters := settings_linters w in
  settings ← defaults_or_new c;
  modify (λ w, with_dicts
            (alter (λ d, update d (default ∅ (linters !! name c))) settings)
            (next_dict w) w);;
  mret settings.

Definition settings (o : nat) : M nat :=
  self ← get_object o;
  get_settings (cls self).

(** [d.get(k)] on the dict object at [l] *)
Definition dict_get (l : nat) (k : string) : M value :=
  w ← get_world;
  mret (default VNone (deref w l !! k)).

(** ** [Linter.reset], [Linter.clear], [Linter.error] and [Linter.run] *)

Definition or_else (a b : option string) : option string :=
  if opt_truthy a then a else b.

Definition reset (o : nat) (code : string) (fname : option string) : M unit :=
  set_object o (set_errors (Some ∅));;
  set_object o (set_code (Some code));;
  set_object o (λ self, set_filename (or_else fname (filename self)) self);;
  set_object o (λ self,
    set_highlight {| hl_args := Some (code, outline (cls self));
                     hl_calls := [] |} self).

Definition clear (o : nat) (pre : string) : M unit :=
  self ← get_object o;
  emit (HighlightClear (highlight self) (view_id (view self)) pre).

Definition highlight_call (o : nat) (c : hl_call) : M unit :=
  set_object o (λ self, set_highlight (hl_call_on (highlight self) c) self).

(** [col or 0] *)
Definition or_zero (col : value) : value :=
  if truthy col then col else VInt 0.

Definition error (o : nat) (line : Z) (col : value) (err : value) : M unit :=
  highlight_call o (Line line);;
  let error := (or_zero col, str err) in
  self ← get_object o;
  match errors self with
  | Some d =>
      match d !! line with
      | Some l => set_object o (set_errors (Some (<[line := (l ++ [error])%list]> d)))
      | None => set_object o (set_errors (Some (<[line := [error]]> d)))
      end
  | None => raise TypeError
  end.

(** [tmpfile(self, cmd, code, suffix='')]; [code] is [None] when the call
    passes no argument for it. *)
Definition tmpfile (self : Linter) (cmd : list string) (code : option string)
    (suffix : string) : M string :=
  match code with
  | Some code =>
      let suffix := if str_truthy suffix then suffix
                    else default "" (tempfile_suffix (cls self)) in
      emit (Tmpfile cmd code suffix);;
      mret (util_tmpfile cmd code suffix)
  | None => raise TypeError
  end.

Definition communicate (cmd : list string) (code : string) : M string :=
  emit (Communicate cmd code);;
  mret (util_communicate cmd code).

Definition run (self : Linter) (cmd : list string) (code : string) : M string :=
  if opt_truthy (tempfile_suffix (cls self))
  then tmpfile self cmd None (default "" (tempfile_suffix (cls self)))
  else communicate cmd code.

(** ** [Linter.lint] *)

(** The body of the loop over [find_errors(output)], for one tuple. *)
Definition record_match (o : nat) (m : RawMatch) : M unit :=
  match rm_match m, rm_row m with
  | Some _, Some row =>
      self ← get_object o;
      col ← (match rm_col m with
             | VNone =>
                 (if truthy (rm_near m)
                  then highlight_call o (Near row (rm_near m))
                  else highlight_call o (Line row));;
                 mret VNone
             | col =>
                 col ← (if 1 <? tab_width (cls self) then
                          let '(start, stop) := full_line (highlight self) row in
                          code ← lift (match code self with
                                       | Some c => Ok c
                                       | None => Raise AttributeError
                                       end);
                          let code_line := slice code start stop in
                          lift (tab_loop (tab_width (cls self)) code_line 0 0 col)
                        else mret col);
                 highlight_call o (Range row col);;
                 mret col
             end);
      error o row col (rm_error m)
  | _, _ => mret ()
  end.

Definition lint (o : nat) : M unit :=
  self ← get_object o;
  if negb (lang_truthy (language (cls self)) && cmd_truthy (cmd (cls self))
           && regex_truthy (self_regex self))
  then raise NotImplementedError
  else
    let cmd := match cmd (cls self) with
               | CmdCallable f => f (code self) (filename self)
               | CmdStatic c => c
               end in
    if negb (cmdval_truthy cmd) then mret ()
    else
      let cmd := as_tuple cmd in
      code ← lift (match code self with
                   | Some c => Ok c
                   | None => Raise AttributeError
                   end);
      output ← run self cmd code;
      if negb (str_truthy output) then mret ()
      else
        emit (DebugOutput (name (cls self)) output);;
        for_gen (find_errors (multiline (cls self)) (self_regex self) output)
                (record_match o).

(** ** [Linter.remove] and [Linter.assign] *)

Definition remove (vid : Z) : M unit :=
  w ← get_world;
  match linters w !! vid with
  | Some ls =>
      for_each (elements ls) (λ o, clear o "lint");;
      modify (with_linters (delete vid))
  | None => mret ()
  end.

(** The loop that returns at the first linter whose syntax is [syn];
    [true] when it returned. *)
Fixpoint handles_syntax (l : list nat) (syn : string) : M bool :=
  match l with
  | [] => mret false
  | o :: l' =>
      linter ← get_object o;
      if String.eqb (syntax linter) syn then mret true
      else handles_syntax l' syn
  end.

(** The loop over [persist.languages.items()]. *)
Fixpoint instantiate (classes : list (string * LinterClass)) (v : View)
    (syn : string) (acc : gset nat) : M (gset nat) :=
  match classes with
  | [] => mret acc
  | (_, linter_class) :: rest =>
      if can_lint linter_class syn then
        linter ← __init__ linter_class v syn (view_file_name v);
        instantiate rest v syn ({[linter]} ∪ acc)
      else instantiate rest v syn acc
  end.

Definition assign (v : View) (reassign : bool) : M (option (gset nat)) :=
  let vid := view_id v in
  modify (with_views <[vid := v]>);;
  let syn := view_syntax v in
  if negb (opt_truthy syn) then remove vid;; mret None
  else
    let syn := default "" (SYNTAX_RE_search (default "" syn)) in
    if str_truthy syn then
      w ← get_world;
      handled ← (match linters w !! vid with
                 | Some ls =>
                     if (negb (bool_decide (ls = ∅)) && negb reassign)%bool
                     then handles_syntax (elements ls) syn
                     else mret false
                 | None => mret false
                 end);
      if (handled : bool) then mret None
      else
        ls ← instantiate (map_to_list (languages w)) v syn ∅;
        modify (with_linters <[vid := ls]>);;
        mret (Some ls)
    else remove vid;; mret None.

(** ** [Linter.get_linters], [Linter.get_selectors], [Linter.lint_view] *)

Definition get_view (vid : Z) : M (option View) :=
  w ← get_world;
  mret (views w !! vid).

Definition get_linters (vid : Z) : M (list nat) :=
  w ← get_world;
  mret (match linters w !! vid with
        | Some ls => elements ls
        | None => []
        end).

Fixpoint with_selector (l : list nat) : M (list (string * nat)) :=
  match l with
  | [] => mret []
  | o :: l' =>
      linter ← get_object o;
      rest ← with_selector l';
      mret (if opt_truthy (selector (cls linter))
            then (default "" (selector (cls linter)), o) :: rest
            else rest)
  end.

Definition get_selectors (vid : Z) : M (list (string * nat)) :=
  l ← get_linters vid;
  with_selector l.

(** [for line, error in d.items(): errors[line + line_offset] = error] *)
Definition shift_into (line_offset : Z) (d errors : Errors) : Errors :=
  foldl (λ errors '(line, error), <[line + line_offset := error]> errors)
        errors (map_to_list d).

(** The loop over [sections[sel]]; [errs] is the local dict [errors]. *)
Fixpoint lint_sections (o : nat) (code : string) (secs : list (Z * Z * Z))
    (errs : Errors) : M Errors :=
  match secs with
  | [] => mret errs
  | (line_offset, left_, right_) :: rest =>
      highlight_call o (MoveTo line_offset left_);;
      set_object o (set_code (Some (slice code left_ right_)));;
      set_object o (set_errors (Some ∅));;
      lint o;;
      linter ← get_object o;
      d ← lift (match errors linter with
                | Some d => Ok d
                | None => Raise AttributeError
                end);
      lint_sections o code rest (shift_into line_offset d errs)
  end.

Fixpoint names_of (l : list nat) : M (list string) :=
  match l with
  | [] => mret []
  | o :: l' =>
      linter ← get_object o;
      rest ← names_of l';
      mret (name (cls linter) :: rest)
  end.

(** The body of the first loop of [lint_view], over every linter. *)
Definition lint_unscoped (code fname : string) (linter : nat) : M unit :=
  s ← settings linter;
  disable ← dict_get s "disable";
  if truthy disable then mret ()
  else
    self ← get_object linter;
    if negb (opt_truthy (selector (cls self))) then
      reset linter code (Some fname);;
      lint linter
    else mret ().

(** The body of the second loop, over [(sel, linter)] of [get_selectors]. *)
Definition lint_scoped (code fname : string)
    (sections : gmap string (list (Z * Z * Z))) (sl : string * nat) : M unit :=
  let '(sel, linter) := sl in
  match sections !! sel with
  | Some secs =>
      reset linter code (Some fname);;
      errs ← lint_sections linter code secs ∅;
      set_object linter (set_errors (Some errs))
  | None => mret ()
  end.

Definition lint_view (vid : Z) (fname : option string) (code : string)
    (sections : gmap string (list (Z * Z * Z))) : M unit :=
  w ← get_world;
  if (negb (str_truthy code) || negb (bool_decide (is_Some (linters w !! vid))))%bool
  then mret ()
  else
    let linters := elements (default ∅ (linters w !! vid)) in
    if bool_decide (linters = []) then mret ()
    else
      let fname := default "" (or_else fname (Some "untitled")) in
      linter_list ← names_of linters;
      emit (DebugLint fname linter_list);;
      for_each linters (lint_unscoped code fname);;
      selectors ← get_selectors vid;
      for_each selectors (lint_scoped code fname sections);;
      v ← get_view vid;
      emit (Callback v (linters ++ selectors.*2)%list).

End Linter.

(** ** A host to run the code on

    A small regular-expression engine, enough for the examples: a pattern
    without special characters, which matches its own text, and the
    pattern [LINE_COL_ERROR]. It refuses every other pattern, as Python's
    engine refuses the unbalanced ["("]. *)
Module Sample.

Definition is_special (c : ascii) : bool :=
  bool_decide (c ∈ list_ascii_of_string ".^$*+?{}[]\|()").

Fixpoint has_special (s : string) : bool :=
  match s with
  | EmptyString => false
  | String c r => (is_special c || has_special r)%bool
  end.

Definition no_groups (a b : Z) : Match := {| span := (a, b); groupdict := ∅ |}.

(** The occurrences of a text [p], left to right, none overlapping;
    [skip] characters are still inside the last occurrence. *)
Fixpoint occurrences (p : string) (skip : nat) (s : string) (pos : Z)
    : list Match :=
  match s with
  | EmptyString =>
      if (Nat.eqb skip 0 && String.eqb p "")%bool then [no_groups pos pos] else []
  | String _ r =>
      match skip with
      | S k => occurrences p k r (pos + 1)
      | O =>
          if String.prefix p s
          then no_groups pos (pos + len p)
               :: occurrences p (String.length p - 1) r (pos + 1)
          else occurrences p 0 r (pos + 1)
      end
  end.

Definition literal (p : string) : Pattern :=
  {| finditer := λ s, occurrences p 0 s 0;
     re_match := λ s, if String.prefix p s then Some (no_groups 0 (len p)) else None |}.

Definition LINE_COL_ERROR : string := "^(?P<line>\d+):(?P<col>\d+): (?P<error>.+)$".

Fixpoint take_digits (s : string) : string * string :=
  match s with
  | String c r =>
      if is_digit c then let '(d, rest) := take_digits r in (String c d, rest)
      else ("", s)
  | EmptyString => ("", "")
  end.

Fixpoint has_newline (s : string) : bool :=
  match s with
  | EmptyString => false
  | String c r => (Ascii.eqb c LF || has_newline r)%bool
  end.

(** The groups of [LINE_COL_ERROR] on a text without newline that it
    matches from end to end. *)
Definition line_col_error_groups (t : string) : option (gmap string (option string)) :=
  let '(l, r1) := take_digits t in
  match r1 with
  | String ":" r2 =>
      let '(c, r3) := take_digits r2 in
      match r3 with
      | String ":" (String " " e) =>
          if (str_truthy l && str_truthy c && str_truthy e && negb (has_newline e))%bool
          then Some (<["line" := Some l]> (<["col" := Some c]> (<["error" := Some e]> ∅)))
          else None
      | _ => None
      end
  | _ => None
  end.

(** The lines between newlines, each with the index of its start. *)
Fixpoint lines_from (cur : string) (start pos : Z) (s : string)
    : list (Z * string) :=
  match s with
  | EmptyString => [(start, String.rev cur)]
  | String c r =>
      if Ascii.eqb c LF
      then (start, String.rev cur) :: lines_from "" (pos + 1) (pos + 1) r
      else lines_from (String c cur) start (pos + 1) r
  end.

Definition line_match (l : Z * string) : option Match :=
  g ← line_col_error_groups l.2;
  Some {| span := (l.1, l.1 + len l.2); groupdict := g |}.

Definition line_col_error (flags : Z) : Pattern :=
  if Z.testbit flags 3 then
    {| finditer := λ s, omap line_match (lines_from "" 0 0 s);
       re_match := λ s, line_match (default (0, "") (head (lines_from "" 0 0 s))) |}
  else
    {| finditer := λ s, from_option (λ m, [m]) [] (line_match (0, chop_newline s));
       re_match := λ s, line_match (0, chop_newline s) |}.

Definition compile (pattern : string) (flags : Z) : option Pattern :=
  if String.eqb pattern LINE_COL_ERROR then Some (line_col_error flags)
  else if has_special pattern then None
  else Some (literal pattern).

(** The bounds of line [row] of the code a highlight was made for: the
    index of its first character and the index after its last one. *)
Definition line_bounds (h : Highlight) (row : Z) : Z * Z :=
  match hl_args h with
  | Some (code, _) =>
      match lines_from "" 0 0 code !! Z.to_nat row with
      | Some (start, l) => (start, start + len l)
      | None => (len code, len code)
      end
  | None => (0, 0)
  end.

(** The host whose checker prints [tool cmd code]. *)
Definition host (tool : list string → string → string) : Host :=
  {| re_compile := compile;
     util_communicate := tool;
     util_tmpfile := λ cmd code _, tool cmd code;
     full_line := line_bounds |}.

End Sample.

(** ** Inputs for the examples *)

(** The line [tab, f, o, o]. *)
Definition tab_foo : string := String tab "foo".

(** What the pattern [(?P<line>\d+)(?P<error> .+)?] matches on ["3"]:
    the group [error] is in the pattern and took no part. *)
Definition match_without_message : Match :=
  {| span := (0, 1);
     groupdict := <["line" := Some "3"]> (<["error" := None]> ∅) |}.

(** What the pattern [(?P<line>\d+)?:(?P<error>.+)] matches on [": x"]:
    the group [line] is in the pattern and took no part. *)
Definition match_without_line : Match :=
  {| span := (0, 3);
     groupdict := <["line" := None]> (<["error" := Some " x"]> ∅) |}.

(** A whole-buffer checker whose command is computed and comes out empty. *)
Definition idle_class : LinterClass :=
  {| name := "Idle"; language := LangStr "python";
     cmd := CmdCallable (λ _ _, CmdStr "");
     regex := "E"; multiline := false; re_flags := 0;
     tempfile_suffix := None; tab_width := 1; selector := None;
     outline := true; defaults := None |}.

Definition sample_view : View :=
  {| view_id := 7;
     view_syntax := Some "Packages/Python/Python.tmLanguage";
     view_file_name := Some "a.py" |}.

Definition empty_world : World :=
  {| settings_linters := ∅; languages := ∅; views := ∅; linters := ∅;
     dicts := ∅; next_dict := 0; objects := ∅; next_object := 0;
     events := [] |}.

(** One instance of [idle_class], with a diagnostic on line 2. *)
Definition idle_linter : Linter :=
  {| cls := idle_class; view := sample_view; syntax := "Python";
     filename := Some "a.py"; self_regex := RePat (Sample.literal "E");
     self_re_flags := 0;
     highlight := {| hl_args := Some ("x = 1", true); hl_calls := [] |};
     errors := Some {[ 2 := [(VInt 4, "old")] ]}; code := Some "x = 1" |}.

Definition idle_world : World :=
  with_linters <[7 := {[0%nat]}]>
    (with_objects <[0%nat := idle_linter]> 1 empty_world).

(** A class whose [defaults] is a dict that is empty, and a user who
    disables it. *)
Definition bare_class : LinterClass :=
  {| name := "Bare"; language := LangStr "python";
     cmd := CmdStatic (CmdStr "bare");
     regex := "E"; multiline := false; re_flags := 0;
     tempfile_suffix := None; tab_width := 1; selector := None;
     outline := true; defaults := Some 0%nat |}.

Definition bare_world : World :=
  with_settings {[ "Bare" := {[ "disable" := VBool true ]} ]}
    (with_dicts <[0%nat := ∅]> 1 empty_world).

(** The same class in a world where its [defaults] holds an entry. *)
Definition stocked_world : World :=
  with_settings {[ "Bare" := {[ "disable" := VBool true ]} ]}
    (with_dicts <[0%nat := {[ "args" := VStr "-q" ]}]> 1 empty_world).

(** A checker for Python whose pattern does not compile, and one for PHP
    inside HTML that the user disables. *)
Definition broken_class : LinterClass :=
  {| name := "Broken"; language := LangStr "python";
     cmd := CmdStatic (CmdStr "broken");
     regex := "("; multiline := false; re_flags := 0;
     tempfile_suffix := None; tab_width := 1; selector := None;
     outline := true; defaults := None |}.

Definition php_class : LinterClass :=
  {| name := "PHP"; language := LangStr "html";
     cmd := CmdStatic (CmdSeq ["php"; "-l"]);
     regex := Sample.LINE_COL_ERROR; multiline := false; re_flags := 0;
     tempfile_suffix := None; tab_width := 1; selector := Some "source.php";
     outline := true; defaults := None |}.

Definition html_view : View :=
  {| view_id := 7;
     view_syntax := Some "Packages/HTML/HTML.tmLanguage";
     view_file_name := Some "a.html" |}.

(** The instance of [php_class] for [html_view], with a diagnostic of an
    earlier run on line 2. *)
Definition php_linter : Linter :=
  {| cls := php_class; view := html_view; syntax := "HTML";
     filename := Some "a.html";
     self_regex := RePat (Sample.line_col_error 0); self_re_flags := 0;
     highlight := {| hl_args := None; hl_calls := [] |};
     errors := Some {[ 2 := [(VInt 4, "old")] ]}; code := None |}.

Definition php_world : World :=
  with_settings {[ "PHP" := {[ "disable" := VBool true ]} ]}
    (with_views <[7 := html_view]>
      (with_linters <[7 := {[0%nat]}]>
        (with_objects <[0%nat := php_linter]> 1 empty_world))).

Definition php_code : string := "<?php echo 1 ?>".

Definition php_sections : gmap string (list (Z * Z * Z)) :=
  {[ "source.php" := [(0, 0, 15)] ]}.

(** The checker that prints one diagnostic for line 1, column 1. *)
Definition one_diagnostic : Host := Sample.host (λ _ _, "1:1: fresh").

(** One checker for Python registered, with the pattern [LINE_COL_ERROR],
    and a tool that reports the spec's diagnostic. *)
Definition pyflakes_class (tab_width : Z) : LinterClass :=
  {| name := "PyFlakes"; language := LangStr "python";
     cmd := CmdStatic (CmdStr "pyflakes");
     regex := Sample.LINE_COL_ERROR; multiline := false; re_flags := 0;
     tempfile_suffix := None; tab_width := tab_width; selector := None;
     outline := true; defaults := None |}.

Definition pyflakes_world (tab_width : Z) : World :=
  {| settings_linters := ∅;
     languages := {[ "PyFlakes" := pyflakes_class tab_width ]};
     views := ∅; linters := ∅; dicts := ∅; next_dict := 0; objects := ∅;
     next_object := 0; events := [] |}.

Definition unused_variable : Host :=
  Sample.host (λ _ _, "3:5: unused variable x").

(** [assign] a view, then [lint_view] its code. *)
Definition assign_and_lint `{Host} (v : View) (code : string) : M unit :=
  assign v false;;
  lint_view (view_id v) (view_file_name v) code ∅.

(** ** Definitions for the statements *)

(** What [split_match] reads for a group the pattern lacks. *)
Definition item_default (k : string) : value :=
  if String.eqb k "error" then VStr "" else VNone.

(** The dict [items] once updated with the groups of a match. *)
Definition items_of (m : Match) : gmap string value :=
  update default_items (group_value <$> groupdict m).

(** A declared language names [d]: it is the string [d], not empty, or a
    tuple or list that holds [d]. *)
Definition declares (decl : Lang) (d : string) : Prop :=
  match decl with
  | LangStr s => s = d ∧ d ≠ ""
  | LangSeq l => d ∈ l
  end.

(** *** Column correction in the words of the specification

    Walk the line from its start with a delta of [declaredTabWidth - 1]
    for every tab met, and stop at the first index [i] with
    [rawColumn - delta <= i]. *)

(** The number of tabs among the first [n] characters of a line. *)
Fixpoint tabs_in (s : string) (n : nat) : Z :=
  match n, s with
  | S k, String c r => (if Ascii.eqb c tab then 1 else 0) + tabs_in r k
  | _, _ => 0
  end.

(** The expansion delta at index [i]: [declaredTabWidth - 1] for every
    tab met so far, the character at [i] included. *)
Definition delta (tab_width : Z) (line : string) (i : nat) : Z :=
  (tab_width - 1) * tabs_in line (S i).

(** [rawColumn - delta <= i] *)
Definition stops (tab_width rawColumn : Z) (line : string) (i : nat) : bool :=
  rawColumn - delta tab_width line i <=? Z.of_nat i.

(** The first index of the line at which the walk stops. *)
Definition first_stop (tab_width rawColumn : Z) (line : string) : option nat :=
  find (stops tab_width rawColumn line) (seq 0 (String.length line)).

(** The instance of [php_class] once [reset] has given it the code, with
    its earlier diagnostic kept, and a world that holds it. *)
Definition ready_linter : Linter := set_code (Some php_code) php_linter.

Definition ready_world : World :=
  with_views <[7 := html_view]>
    (with_linters <[7 := {[0%nat]}]>
      (with_objects <[0%nat := ready_linter]> 1 empty_world)).

(** A checker that asks for a temporary file, and an instance of it with
    its code set. *)
Definition tmpfile_class : LinterClass :=
  {| name := "Tmp"; language := LangStr "python";
     cmd := CmdStatic (CmdStr "tmp");
     regex := "E"; multiline := false; re_flags := 0;
     tempfile_suffix := Some "py"; tab_width := 1; selector := None;
     outline := true; defaults := None |}.

Definition tmpfile_linter : Linter :=
  {| cls := tmpfile_class; view := sample_view; syntax := "Python";
     filename := Some "a.py"; self_regex := RePat (Sample.literal "E");
     self_re_flags := 0;
     highlight := {| hl_args := Some ("x = 1", true); hl_calls := [] |};
     errors := Some ∅; code := Some "x = 1" |}.

Definition tmpfile_world : World :=
  with_objects <[0%nat := tmpfile_linter]> 1 empty_world.

(** An instance of [pyflakes_class] with its code set and no diagnostic
    yet. *)
Definition pyflakes_linter : Linter :=
  {| cls := pyflakes_class 1; view := sample_view; syntax := "Python";
     filename := Some "a.py";
     self_regex := RePat (Sample.line_col_error 0); self_re_flags := 0;
     highlight := {| hl_args := Some ("x = 1", true); hl_calls := [] |};
     errors := Some ∅; code := Some "x = 1" |}.

Definition pyflakes_ready : World :=
  with_objects <[0%nat := pyflakes_linter]> 1 empty_world.

(** The world with more events at the end of its log. *)
Definition add_events (es : list Event) (w : World) : World :=
  {| settings_linters := settings_linters w; languages := languages w;
     views := views w; linters := linters w; dicts := dicts w;
     next_dict := next_dict w; objects := objects w;
     next_object := next_object w; events := (events w ++ es)%list |}.

(** What [clear] logs for the linters of a list: the marks of each,
    cleared in its view under the prefix ['lint']. *)
Definition clear_events (w : World) (l : list nat) : list Event :=
  omap (λ o, s ← objects w !! o;
             Some (HighlightClear (highlight s) (view_id (view s)) "lint")) l.

(** The classes of a list that can lint a syntax, in the order of the
    list. *)
Definition matching (classes : list (string * LinterClass)) (syn : string)
    : list LinterClass :=
  List.filter (λ c, can_lint c syn) classes.*2.

(** An instance as [assign] makes it for a class, a view and a syntax. *)
Definition fresh_instance (c : LinterClass) (v : View) (syn : string)
    (s : Linter) : Prop :=
  cls s = c ∧ view s = v ∧ syntax s = syn ∧ filename s = view_file_name v
  ∧ errors s = None ∧ code s = None.

(** [idle_world] with the user disabling the checker. *)
Definition disabled_world : World :=
  with_settings {[ "Idle" := {[ "disable" := VBool true ]} ]} idle_world.

(** Two classes that share one [defaults] dict, as a class and a subclass
    that does not declare its own, and a user who disables the first. *)
Definition parent_class : LinterClass :=
  {| name := "Parent"; language := LangStr "python";
     cmd := CmdStatic (CmdStr "parent");
     regex := "E"; multiline := false; re_flags := 0;
     tempfile_suffix := None; tab_width := 1; selector := None;
     outline := true; defaults := Some 0%nat |}.

Definition child_class : LinterClass :=
  {| name := "Child"; language := LangStr "python";
     cmd := CmdStatic (CmdStr "child");
     regex := "E"; multiline := false; re_flags := 0;
     tempfile_suffix := None; tab_width := 1; selector := None;
     outline := true; defaults := Some 0%nat |}.

Definition family_world : World :=
  with_settings {[ "Parent" := {[ "disable" := VBool true ]} ]}
    (with_dicts <[0%nat := {[ "args" := VStr "-q" ]}]> 1 empty_world).

(** What [lint_view] does with a linter before it runs it on a section:
    [reset], then the origin of the marks, the text of the section as the
    code, and an empty dict of diagnostics. *)
Definition enter_region (o : nat) (code fname : string) (sec : Z * Z * Z)
    : M unit :=
  let '(line_offset, left_, right_) := sec in
  reset o code (Some fname);;
  highlight_call o (MoveTo line_offset left_);;
  set_object o (set_code (Some (slice code left_ right_)));;
  set_object o (set_errors (Some ∅)).

(** Sections of [php_code] that start at line 10 of the buffer. *)
Definition php_sections_10 : gmap string (list (Z * Z * Z)) :=
  {[ "source.php" := [(10, 0, 15)] ]}.

(** A result that is not an exception. *)
Definition is_ok {A} (r : result A) : bool :=
  match r with
  | Ok _ => true
  | Raise _ => false
  end.

(** *** Words for the further properties *)

Fixpoint has_tab (s : string) : bool :=
  match s with
  | EmptyString => false
  | String c r => (Ascii.eqb c tab || has_tab r)%bool
  end.

Fixpoint has_slash (s : string) : bool :=
  match s with
  | EmptyString => false
  | String c r => (Ascii.eqb c "/" || has_slash r)%bool
  end.

(** The tuple of a line that the pattern does not match. *)
Definition no_match : RawMatch := mkRaw None None VNone VNone (VStr "") VNone.

(** *** The world before and after a method *)

(** What [__init__] sets and no method changes after it. *)
Definition static (l : Linter) : LinterClass * View * string * RegexAttr * Z :=
  (cls l, view l, syntax l, self_regex l, self_re_flags l).

(** Every line keeps its diagnostics, with more at their end at most. *)
Definition errors_grow (e e' : option Errors) : Prop :=
  match e, e' with
  | Some d, Some d' =>
      ∀ line l, d !! line = Some l → ∃ more, d' !! line = Some (l ++ more)%list
  | None, None => True
  | _, _ => False
  end.

(** An instance after [lint]: the same but for diagnostics and marks
    added. *)
Record linter_grow (l l' : Linter) : Prop := {
  grow_static : static l' = static l;
  grow_code : code l' = code l;
  grow_filename : filename l' = filename l;
  grow_errors : errors_grow (errors l) (errors l');
  grow_hl_args : hl_args (highlight l') = hl_args (highlight l);
  grow_hl_calls : hl_calls (highlight l) `prefix_of` hl_calls (highlight l');
}.

Definition is_callback (e : Event) : bool :=
  match e with
  | Callback _ _ => true
  | _ => false
  end.

(** The calls of the callback among the events. *)
Definition callbacks (es : list Event) : list Event := List.filter is_callback es.

(** The events that were there are there, and no callback was added. *)
Definition log_extends (es es' : list Event) : Prop :=
  ∃ more, es' = (es ++ more)%list ∧ callbacks more = [].

(** What [lint] on the object [o] may change: the diagnostics and marks of
    [o], which grow, and the log. *)
Record lint_frame (o : nat) (w w' : World) : Prop := {
  lf_settings : settings_linters w' = settings_linters w;
  lf_languages : languages w' = languages w;
  lf_views : views w' = views w;
  lf_linters : linters w' = linters w;
  lf_dicts : dicts w' = dicts w;
  lf_next_dict : next_dict w' = next_dict w;
  lf_next_object : next_object w' = next_object w;
  lf_others : ∀ o', o' ≠ o → objects w' !! o' = objects w !! o';
  lf_self : option_Forall2 linter_grow (objects w !! o) (objects w' !! o);
  lf_events : log_extends (events w) (events w');
}.

(** What a pass over the linters in [S] may change: the instances in [S],
    but for what [__init__] set, the dict objects, and the log. *)
Record pass_frame (S : gset nat) (w w' : World) : Prop := {
  pf_settings : settings_linters w' = settings_linters w;
  pf_languages : languages w' = languages w;
  pf_views : views w' = views w;
  pf_linters : linters w' = linters w;
  pf_next_object : next_object w' = next_object w;
  pf_others : ∀ o, o ∉ S → objects w' !! o = objects w !! o;
  pf_static : ∀ o, static <$> objects w' !! o = static <$> objects w !! o;
  pf_events : log_extends (events w) (events w');
}.

(** What [lint_view] on the linters in [S] may change: as [pass_frame],
    with a log that may have a callback added. *)
Record view_frame (S : gset nat) (w w' : World) : Prop := {
  vf_settings : settings_linters w' = settings_linters w;
  vf_languages : languages w' = languages w;
  vf_views : views w' = views w;
  vf_linters : linters w' = linters w;
  vf_next_object : next_object w' = next_object w;
  vf_others : ∀ o, o ∉ S → objects w' !! o = objects w !! o;
  vf_static : ∀ o, static <$> objects w' !! o = static <$> objects w !! o;
  vf_events : events w `prefix_of` events w';
}.

(** The relations are orders. *)
Global Instance errors_grow_refl : Reflexive errors_grow.
Proof.
  intros [d|]; simpl; [|done]. intros line l Hl. exists []. by rewrite app_nil_r.
Qed.

Global Instance errors_grow_trans : Transitive errors_grow.
Proof.
  intros [d1|] [d2|] [d3|]; simpl; try done.
  intros H12 H23 line l Hl.
  destruct (H12 _ _ Hl) as [m1 H1]. destruct (H23 _ _ H1) as [m2 H2].
  exists (m1 ++ m2)%list. by rewrite app_assoc.
Qed.

Global Instance linter_grow_refl : Reflexive linter_grow.
Proof. by split. Qed.

Global Instance linter_grow_trans : Transitive linter_grow.
Proof.
  intros l1 l2 l3 [] []. split; try congruence; by etrans.
Qed.

Global Instance log_extends_refl : Reflexive log_extends.
Proof. intros es. exists []. by rewrite app_nil_r. Qed.

Global Instance log_extends_trans : Transitive log_extends.
Proof.
  intros e1 e2 e3 (m1 & -> & H1) (m2 & -> & H2). exists (m1 ++ m2)%list.
  split; [by rewrite app_assoc|].
  unfold callbacks in *. by rewrite List.filter_app, H1, H2.
Qed.

Global Instance lint_frame_preorder (o : nat) : PreOrder (lint_frame o).
Proof.
  split.
  - intros w. by split.
  - intros w1 w2 w3 H12 H23. split.
    + rewrite (lf_settings _ _ _ H23). apply H12.
    + rewrite (lf_languages _ _ _ H23). apply H12.
    + rewrite (lf_views _ _ _ H23). apply H12.
    + rewrite (lf_linters _ _ _ H23). apply H12.
    + rewrite (lf_dicts _ _ _ H23). apply H12.
    + rewrite (lf_next_dict _ _ _ H23). apply H12.
    + rewrite (lf_next_object _ _ _ H23). apply H12.
    + intros o' Ho'. rewrite (lf_others _ _ _ H23) by done. by apply H12.
    + etrans; [apply H12 | apply H23].
    + etrans; [apply H12 | apply H23].
Qed.

Global Instance pass_frame_preorder (S : gset nat) : PreOrder (pass_frame S).
Proof.
  split.
  - intros w. by split.
  - intros w1 w2 w3 H12 H23. split.
    + rewrite (pf_settings _ _ _ H23). apply H12.
    + rewrite (pf_languages _ _ _ H23). apply H12.
    + rewrite (pf_views _ _ _ H23). apply H12.
    + rewrite (pf_linters _ _ _ H23). apply H12.
    + rewrite (pf_next_object _ _ _ H23). apply H12.
    + intros o' Ho'. rewrite (pf_others _ _ _ H23) by done. by apply H12.
    + intros o'. rewrite (pf_static _ _ _ H23). apply H12.
    + etrans; [apply H12 | apply H23].
Qed.

(** The method [m] relates every world to the one it leaves, also when it
    raises. *)
Definition preserves {A} (R : World → World → Prop) (m : M A) : Prop :=
  ∀ w, R w (m w).2.

(** The linter [o] has a selector. *)
Definition scoped (w : World) (o : nat) : bool :=
  match objects w !! o with
  | Some l => opt_truthy (selector (cls l))
  | None => false
  end.

(** * Properties *)

(** ** Python strings *)

Example splitlines_mixed :
  splitlines ("a" +:+ String CR (String LF "b") +:+ String LF (String LF "c"))
  = ["a"; "b"; ""; "c"].
Proof. reflexivity. Qed.

Example strip_both : strip "  3:5: x  " = "3:5: x".
Proof. reflexivity. Qed.

Example int_examples :
  int (VStr " 12 ") = Ok 12 ∧ int (VStr "-7") = Ok (-7)
  ∧ int (VStr "") = Raise ValueError ∧ int (VStr "1x") = Raise ValueError
  ∧ int VNone = Raise TypeError.
Proof. repeat split; reflexivity. Qed.

(** [int] does not skip the separators 28 to 31, which [strip] removes. *)
Example int_separators :
  int (VStr (String "031" "3")) = Raise ValueError
  ∧ int (VStr (String "028" "3")) = Raise ValueError
  ∧ int (VStr (String "160" "3")) = Ok 3
  ∧ int (VStr (String "009" "3" +:+ String "010" "")) = Ok 3
  ∧ strip (String "031" "3") = "3".
Proof. repeat split; reflexivity. Qed.

Example slice_examples :
  slice "hello" 1 3 = "el" ∧ slice "hello" (-2) 10 = "lo"
  ∧ slice "hello" 4 2 = "".
Proof. repeat split; reflexivity. Qed.

Lemma str_truthy_true s : str_truthy s = true ↔ s ≠ "".
Proof.
  unfold str_truthy. rewrite negb_true_iff.
  destruct (String.eqb_spec s ""); split; congruence.
Qed.

Lemma splitlines_go_nonempty s cur :
  s ≠ "" ∨ cur ≠ "" → splitlines_go cur s ≠ [].
Proof.
  revert cur. induction s as [|c r IH]; intros cur Hne; simpl.
  - destruct cur; [destruct Hne; congruence | discriminate].
  - destruct (Ascii.eqb c CR).
    + destruct r as [|c' r']; [discriminate|].
      destruct (Ascii.eqb c' LF); discriminate.
    + destruct (is_linebreak c); [discriminate|].
      apply IH. right. discriminate.
Qed.

(** A text that is not empty has at least one line. *)
Lemma splitlines_nonempty s : s ≠ "" → splitlines s ≠ [].
Proof. intros. apply splitlines_go_nonempty. by left. Qed.

(** ** [split_match] *)

Lemma items_lookup m k :
  k ∈ ["line"; "col"; "type"; "error"; "near"] →
  getitem (items_of m) k
  = Ok (match groupdict m !! k with
        | Some g => group_value g
        | None => item_default k
        end).
Proof.
  intros Hk. unfold getitem, items_of, update.
  rewrite lookup_union, lookup_fmap.
  destruct (groupdict m !! k) as [g|] eqn:Hg; simpl.
  - by destruct (default_items !! k).
  - set_unfold. destruct Hk as [->|[->|[->|[->|[->|[]]]]]]; reflexivity.
Qed.

(** [split_match] on a match, with the dict look-ups done. *)
Lemma split_match_Some m :
  split_match (Some m)
  = (let get k := match groupdict m !! k with
                  | Some g => group_value g
                  | None => item_default k
                  end in
     row ← int (get "line");
     col ← (if truthy (get "col") then c ← int (get "col"); Ok (VInt (c - 1))
            else Ok (get "col"));
     Ok (mkRaw (Some m) (Some (row - 1)) col (get "type") (get "error") (get "near"))).
Proof.
  unfold split_match. fold (items_of m).
  rewrite !items_lookup by set_solver. reflexivity.
Qed.

Example split_match_line_col :
  split_match (Some {| span := (0, 6);
                       groupdict := <["line" := Some "3"]> (<["col" := Some "5"]>
                                      (<["error" := Some "x"]> ∅)) |})
  = Ok (mkRaw (Some {| span := (0, 6);
                       groupdict := <["line" := Some "3"]> (<["col" := Some "5"]>
                                      (<["error" := Some "x"]> ∅)) |})
              (Some 2) (VInt 4) VNone (VStr "x") VNone).
Proof. reflexivity. Qed.

(** C10: when the group [line] is in the pattern and took no part in the
    match, so that [groupdict()] maps it to [None], [split_match] raises
    [TypeError] at [int(row)]: it neither yields an empty tuple nor skips
    the match. *)
Theorem split_match_line_None_raises (m : Match) :
  groupdict m !! "line" = Some None →
  split_match (Some m) = Raise TypeError.
Proof.
  intros Hline. rewrite split_match_Some. simpl. by rewrite Hline.
Qed.

Lemma split_match_line_None_raises_witness :
  groupdict match_without_line !! "line" = Some None
  ∧ split_match (Some match_without_line) = Raise TypeError.
Proof.
  split; [reflexivity|].
  apply (split_match_line_None_raises match_without_line). reflexivity.
Defined.

(** X26: a pattern without a group [line] makes [split_match] raise
    [TypeError] on every match: the default of [line] is [None]. *)
Lemma split_match_no_line_group_raises (m : Match) :
  groupdict m !! "line" = None →
  split_match (Some m) = Raise TypeError.
Proof.
  intros Hline. rewrite split_match_Some. simpl. by rewrite Hline.
Qed.

(** C8, as the code has it: the error field is null when the pattern has
    a group [error] that took no part in the match. *)
Lemma split_match_error_null :
  split_match (Some match_without_message)
  = Ok (mkRaw (Some match_without_message) (Some 2) VNone VNone VNone VNone)
  ∧ ¬ (∀ m r, split_match (Some m) = Ok r → rm_error r ≠ VNone).
Proof.
  assert (Heq : split_match (Some match_without_message)
    = Ok (mkRaw (Some match_without_message) (Some 2) VNone VNone VNone VNone))
    by reflexivity.
  split; [exact Heq|].
  intros Hall. by apply (Hall _ _ Heq).
Qed.

(** C8, amended: when [split_match] returns for a match, each of [col],
    [type] and [near] is [None] and [error] is the empty string if the
    pattern lacks that group. Each of [type], [near] and [error] is what
    [groupdict()] holds otherwise, [None] for a group that took no part,
    also for [error]. [col] is [None] for a group that took no part, the
    empty string for a group that captured the empty text, and the number
    it captured less one otherwise; the row is the number of the group
    [line] less one. *)
Theorem split_match_defaults (m : Match) (r : RawMatch) :
  split_match (Some m) = Ok r →
  (groupdict m !! "col" = None → rm_col r = VNone)
  ∧ (groupdict m !! "type" = None → rm_type r = VNone)
  ∧ (groupdict m !! "near" = None → rm_near r = VNone)
  ∧ (groupdict m !! "error" = None → rm_error r = VStr "")
  ∧ (∀ g, groupdict m !! "type" = Some g → rm_type r = group_value g)
  ∧ (∀ g, groupdict m !! "near" = Some g → rm_near r = group_value g)
  ∧ (∀ g, groupdict m !! "error" = Some g → rm_error r = group_value g)
  ∧ (∃ s n, groupdict m !! "line" = Some (Some s) ∧ int_of_str s = Some n
            ∧ rm_row r = Some (n - 1))
  ∧ rm_match r = Some m
  ∧ (groupdict m !! "col" = Some None → rm_col r = VNone)
  ∧ (groupdict m !! "col" = Some (Some "") → rm_col r = VStr "")
  ∧ (∀ sc, groupdict m !! "col" = Some (Some sc) → sc ≠ "" →
       ∃ c, int_of_str sc = Some c ∧ rm_col r = VInt (c - 1)).
Proof.
  rewrite split_match_Some. simpl.
  destruct (groupdict m !! "line") as [[s|]|] eqn:Hline;
    simpl; [|discriminate|discriminate].
  destruct (int_of_str s) as [n|] eqn:Hint; simpl; [|discriminate].
  intros Hr.
  assert (∃ col, r = mkRaw (Some m) (Some (n - 1)) col
            (match groupdict m !! "type" with
             | Some g => group_value g | None => item_default "type" end)
            (match groupdict m !! "error" with
             | Some g => group_value g | None => item_default "error" end)
            (match groupdict m !! "near" with
             | Some g => group_value g | None => item_default "near" end)
          ∧ (groupdict m !! "col" = None → col = VNone)
          ∧ (groupdict m !! "col" = Some None → col = VNone)
          ∧ (groupdict m !! "col" = Some (Some "") → col = VStr "")
          ∧ (∀ sc, groupdict m !! "col" = Some (Some sc) → sc ≠ "" →
               ∃ c, int_of_str sc = Some c ∧ col = VInt (c - 1)))
    as (col & -> & Hcol & Hcol_none & Hcol_empty & Hcol_number).
  { destruct (groupdict m !! "col") as [[sc|]|]; simpl in Hr.
    - destruct sc as [|a sc]; simpl in Hr.
      + injection Hr as <-. eexists. split; [reflexivity|].
        repeat split; try done. by intros sc [= <-].
      + destruct (int_of_str (String a sc)) as [c|] eqn:Hc; simpl in Hr;
          [|discriminate].
        injection Hr as <-. eexists. split; [reflexivity|].
        repeat split; try done. intros sc' [= <-] _. by exists c.
    - injection Hr as <-. eexists. split; [reflexivity|]. by repeat split.
    - injection Hr as <-. eexists. split; [reflexivity|]. by repeat split. }
  simpl.
  split; [exact Hcol|].
  split; [by intros ->|]. split; [by intros ->|]. split; [by intros ->|].
  split; [by intros g ->|]. split; [by intros g ->|]. split; [by intros g ->|].
  split; [by exists s, n|]. split; [done|].
  split; [exact Hcol_none|]. split; [exact Hcol_empty | exact Hcol_number].
Qed.

Lemma split_match_defaults_witness :
  ∃ r, split_match (Some match_without_message) = Ok r
       ∧ rm_col r = VNone ∧ rm_near r = VNone ∧ rm_error r = VNone.
Proof.
  eexists. split; [reflexivity|].
  pose proof (split_match_defaults match_without_message _ eq_refl)
    as (Hcol & _ & Hnear & _ & _ & _ & Herr & _).
  split; [apply Hcol; reflexivity|].
  split; [apply Hnear; reflexivity|].
  apply (Herr None). reflexivity.
Defined.

(** ** [find_errors] with [multiline] *)

Lemma find_errors_multiline (p : Pattern) (output : string) :
  find_errors true (RePat p) output
  = yield_each (λ error, split_match (Some error)) (finditer p output).
Proof. reflexivity. Qed.

(** What a loop of yields gives when no element makes it raise: one
    value per element, in order. *)
Lemma yield_each_ok {A B} (f : A → result B) (l : list A) :
  Forall (λ a, ∃ b, f a = Ok b) l →
  thrown (yield_each f l) = None
  ∧ Forall2 (λ a b, f a = Ok b) l (yielded (yield_each f l)).
Proof.
  induction 1 as [|a l [b Hb] _ [IH1 IH2]]; simpl.
  - split; [done | constructor].
  - rewrite Hb. simpl. split; [done | by constructor].
Qed.

(** X24: with [multiline] and occurrences that all split, the extraction
    yields one tuple per occurrence, as many as [finditer] gives, and does
    not raise. *)
Lemma find_errors_multiline_occurrences (p : Pattern) (output : string) :
  Forall (λ m, ∃ r, split_match (Some m) = Ok r) (finditer p output) →
  length (yielded (find_errors true (RePat p) output))
  = length (finditer p output)
  ∧ thrown (find_errors true (RePat p) output) = None.
Proof.
  intros Hall. rewrite find_errors_multiline.
  destruct (yield_each_ok _ _ Hall) as [Hthrown Hyield].
  split; [symmetry; eapply Forall2_length; exact Hyield | exact Hthrown].
Qed.

(** C1, as the code has it: with [multiline] set and an output in which
    the pattern occurs nowhere, the extraction yields nothing at all, not
    one empty tuple: the iterator of [finditer] is true, so the branch that
    yields [split_match(None)] is never taken. *)
Theorem find_errors_multiline_no_occurrence (p : Pattern) (output : string) :
  finditer p output = [] →
  find_errors true (RePat p) output = Stop
  ∧ yielded (find_errors true (RePat p) output) = [].
Proof.
  intros Hnone. rewrite find_errors_multiline, Hnone. by split.
Qed.

Lemma find_errors_multiline_no_occurrence_witness :
  finditer (Sample.literal "E") "all good" = []
  ∧ find_errors true (RePat (Sample.literal "E")) "all good" = Stop.
Proof.
  split; [reflexivity|].
  apply (find_errors_multiline_no_occurrence (Sample.literal "E") "all good").
  reflexivity.
Defined.

(** ** Column correction *)

Lemma find_ext_in {A} (P Q : A → bool) (l : list A) :
  (∀ a, In a l → P a = Q a) → find P l = find Q l.
Proof.
  induction l as [|a l IH]; intros Hext; simpl; [done|].
  rewrite (Hext a) by (by left).
  destruct (Q a); [done|]. apply IH. intros b Hb. apply Hext. by right.
Qed.

Lemma tabs_in_step c r m :
  tabs_in (String c r) (S m) = (if Ascii.eqb c tab then 1 else 0) + tabs_in r m.
Proof. reflexivity. Qed.

Lemma tabs_in_0 s : tabs_in s 0 = 0.
Proof. by destruct s. Qed.

(** The loop, from index [i0] with the delta [d0] so far, stops at the
    first index of the rest at which [col - delta <= i] holds. *)
Lemma tab_loop_find (tw col : Z) (rest : string) (i0 : nat) (d0 : Z) :
  tab_loop tw rest (Z.of_nat i0) d0 (VInt col)
  = Ok (VInt (from_option Z.of_nat col
         (find (λ k, col - (d0 + (tw - 1) * tabs_in rest (S (k - i0))) <=? Z.of_nat k)
               (seq i0 (String.length rest))))).
Proof.
  revert i0 d0. induction rest as [|c r IH]; intros i0 d0; [reflexivity|].
  cbn [tab_loop String.length seq find minus mbind result_bind rbind].
  rewrite Nat.sub_diag, tabs_in_step, tabs_in_0.
  set (b := if Ascii.eqb c tab then 1 else 0).
  assert (Hd : (if Ascii.eqb c tab then d0 + (tw - 1) else d0) = d0 + (tw - 1) * (b + 0)).
  { subst b. destruct (Ascii.eqb c tab); lia. }
  rewrite Hd. destruct (col - (d0 + (tw - 1) * (b + 0)) <=? Z.of_nat i0); [done|].
  replace (Z.of_nat i0 + 1) with (Z.of_nat (S i0)) by lia.
  rewrite IH. do 3 f_equal. apply find_ext_in.
  intros k Hk%in_seq.
  replace (S (k - i0)) with (S (S (k - S i0))) by lia.
  rewrite tabs_in_step. fold b. f_equal. lia.
Qed.

Lemma find_seq_first (P : nat → bool) (n a i : nat) :
  find P (seq a n) = Some i →
  (a ≤ i < a + n)%nat ∧ P i = true ∧ ∀ j, (a ≤ j < i)%nat → P j = false.
Proof.
  revert a. induction n as [|n IH]; intros a Hfind; simpl in Hfind; [discriminate|].
  destruct (P a) eqn:Ha.
  - injection Hfind as <-. repeat split; [lia | lia | done | lia].
  - destruct (IH _ Hfind) as (Hi & HP & Hbefore).
    repeat split; [lia | lia | done |].
    intros j Hj. destruct (decide (j = a)) as [->|]; [done|].
    apply Hbefore. lia.
Qed.

Lemma find_seq_none (P : nat → bool) (n a : nat) :
  find P (seq a n) = None → ∀ j, (a ≤ j < a + n)%nat → P j = false.
Proof.
  revert a. induction n as [|n IH]; intros a Hfind j Hj; simpl in Hfind; [lia|].
  destruct (P a) eqn:Ha; [discriminate|].
  destruct (decide (j = a)) as [->|]; [done|]. apply (IH _ Hfind). lia.
Qed.

(** The first stop is an index of the line at which the walk stops and
    before which it does not. *)
Lemma first_stop_Some (tw col : Z) (line : string) (i : nat) :
  first_stop tw col line = Some i →
  (i < String.length line)%nat ∧ stops tw col line i = true
  ∧ ∀ j, (j < i)%nat → stops tw col line j = false.
Proof.
  intros (Hi & HP & Hbefore)%find_seq_first.
  repeat split; [lia | done |]. intros j Hj. apply Hbefore. lia.
Qed.

Lemma first_stop_None (tw col : Z) (line : string) :
  first_stop tw col line = None →
  ∀ j, (j < String.length line)%nat → stops tw col line j = false.
Proof. intros Hnone j Hj. apply (find_seq_none _ _ _ Hnone). lia. Qed.

(** C2, as the spec has it: the walk over [tab, f, o, o] with a tab width
    of 4 and the raw column 5 does not end at 4, whether 5 is the column
    the loop starts from or the 1-based column of the checker. *)
Lemma correct_column_tab_foo_not_4 :
  correct_column 4 tab_foo (VInt 5) ≠ Ok (VInt 4)
  ∧ correct_column 4 tab_foo (VInt (5 - 1)) ≠ Ok (VInt 4).
Proof. split; discriminate. Qed.

(** No raw column is corrected to 4 on that line. *)
Lemma correct_column_tab_foo_never_4 (col : Z) :
  correct_column 4 tab_foo (VInt col) ≠ Ok (VInt 4).
Proof.
  unfold correct_column, tab_foo, tab. cbn.
  repeat match goal with
         | |- context [?a <=? ?b] => destruct (Z.leb_spec a b)
         end; intros [=]; lia.
Qed.

(** C2, amended: with a tab width above 1, the corrected column is the
    first index [i] of the line with [rawColumn - delta <= i], where delta
    is [declaredTabWidth - 1] for every tab met up to [i], and the raw
    column when the line has no such index; for the line [tab, f, o, o],
    the tab width 4 and the raw column 5, it is 2. *)
Theorem correct_column_first_stop (tab_width rawColumn : Z) (line : string) :
  1 < tab_width →
  correct_column tab_width line (VInt rawColumn)
  = Ok (VInt (from_option Z.of_nat rawColumn
                (first_stop tab_width rawColumn line)))
  ∧ correct_column 4 tab_foo (VInt 5) = Ok (VInt 2).
Proof.
  intros Htw. split; [|reflexivity].
  unfold correct_column. destruct (Z.ltb_spec 1 tab_width); [|lia].
  change 0 with (Z.of_nat 0) at 1.
  rewrite (tab_loop_find tab_width rawColumn line 0 0).
  do 3 f_equal. apply find_ext_in. intros k _.
  unfold stops, delta. rewrite Nat.sub_0_r. by rewrite Z.add_0_l.
Qed.

Lemma correct_column_first_stop_witness :
  1 < 4
  ∧ first_stop 4 5 tab_foo = Some 2%nat
  ∧ correct_column 4 tab_foo (VInt 5) = Ok (VInt 2).
Proof.
  split; [lia|]. split; [reflexivity|].
  apply (correct_column_first_stop 4 5 tab_foo). lia.
Defined.

(** With a tab width of 1 or less the column is left as it is. *)
Lemma correct_column_skip (tab_width : Z) (line : string) (col : value) :
  tab_width ≤ 1 → correct_column tab_width line col = Ok col.
Proof.
  intros Htw. unfold correct_column. by destruct (Z.ltb_spec 1 tab_width); [lia|].
Qed.

(** ** [linter_can_lint] *)

Lemma lower_char_idem c : lower_char (lower_char c) = lower_char c.
Proof. destruct c as [[] [] [] [] [] [] [] []]; reflexivity. Qed.

Lemma lower_idem s : lower (lower s) = lower s.
Proof.
  induction s as [|c r IH]; simpl; [done|]. by rewrite lower_char_idem, IH.
Qed.

(** C7, as the spec has it: a declared language with an upper-case letter
    is not matched by a case variant of its own name. *)
Lemma can_lint_declared_capital :
  linter_can_lint (LangStr "Python") "python" ≠ true.
Proof. discriminate. Qed.

(** C7, amended: the match lowers the case of the buffer's syntax only.
    When the declared language, a string or a member of a tuple or list,
    is all lower case, [can_lint] is true for every case variant of it. *)
Theorem can_lint_lowercase_declared (decl : Lang) (d language : string) :
  declares decl d →
  lower d = d →
  lower language = lower d →
  linter_can_lint decl language = true.
Proof.
  intros Hdecl Hlow Hsame. unfold linter_can_lint.
  rewrite Hsame, Hlow. destruct decl as [s|l]; simpl in *.
  - destruct Hdecl as [-> Hne].
    apply str_truthy_true in Hne. rewrite Hne.
    by rewrite bool_decide_eq_true_2.
  - destruct l as [|a l]; [by apply elem_of_nil in Hdecl|]. simpl.
    by rewrite bool_decide_eq_true_2.
Qed.

Lemma can_lint_lowercase_declared_witness :
  linter_can_lint (LangSeq ["html"; "python"]) "PyThon" = true
  ∧ linter_can_lint (LangStr "python") "PYTHON" = true.
Proof.
  split.
  - apply (can_lint_lowercase_declared (LangSeq ["html"; "python"]) "python" "PyThon");
      [simpl; set_solver | reflexivity | reflexivity].
  - apply (can_lint_lowercase_declared (LangStr "python") "python" "PYTHON");
      [by split | reflexivity | reflexivity].
Defined.

(** X27: a declared language that is a string and is not all lower case
    matches no syntax at all, whatever its case. *)
Lemma can_lint_not_lowercase (d language : string) :
  lower d ≠ d → linter_can_lint (LangStr d) language = false.
Proof.
  intros Hd. unfold linter_can_lint. destruct (lang_truthy (LangStr d)); [|done].
  simpl. rewrite bool_decide_eq_false_2; [done|].
  intros Heq. apply Hd. rewrite <- Heq. apply lower_idem.
Qed.

(** ** Stepping through a method *)

(** Unfolds the plumbing of [M] in the goal. *)
Ltac run_m :=
  unfold mbind, M_bind, lift, emit, modify, mret, M_ret, raise, get_world;
  cbv beta iota.

Lemma bind_get_object {A} (k : Linter → M A) (w : World) (o : nat) (self : Linter) :
  objects w !! o = Some self → (get_object o ≫= k) w = k self w.
Proof.
  intros Ho. unfold mbind, M_bind, get_object. by rewrite Ho.
Qed.

Lemma bind_get_world {A} (k : World → M A) (w : World) :
  (get_world ≫= k) w = k w w.
Proof. reflexivity. Qed.

Lemma bind_modify {A} (f : World → World) (k : unit → M A) (w : World) :
  (modify f ≫= k) w = k () (f w).
Proof. reflexivity. Qed.

Lemma bind_mret {A B} (a : A) (k : A → M B) (w : World) :
  (mret a ≫= k) w = k a w.
Proof. reflexivity. Qed.

(** ** [lint]: the contract and the skipped checker *)

(** C5: [lint()] on a checker of which the language, the command or the
    pattern is empty raises [NotImplementedError]; on a checker whose
    command is a function that gives an empty command it returns, and the
    world is as it was: nothing was run and the diagnostics are the same. *)
Theorem lint_contract `{Host} (w : World) (o : nat) (self : Linter) :
  objects w !! o = Some self →
  (lang_truthy (language (cls self)) = false
   ∨ cmd_truthy (cmd (cls self)) = false
   ∨ regex_truthy (self_regex self) = false →
   lint o w = (Raise NotImplementedError, w))
  ∧ (∀ f, lang_truthy (language (cls self)) = true →
          regex_truthy (self_regex self) = true →
          cmd (cls self) = CmdCallable f →
          cmdval_truthy (f (code self) (filename self)) = false →
          lint o w = (Ok (), w)).
Proof.
  intros Ho. split.
  - intros Hempty. unfold lint. rewrite (bind_get_object _ _ _ _ Ho).
    destruct Hempty as [-> | [-> | ->]]; simpl;
      rewrite ?andb_false_r; reflexivity.
  - intros f Hlang Hre Hcmd Hnone. unfold lint.
    rewrite (bind_get_object _ _ _ _ Ho).
    rewrite Hlang, Hre, Hcmd, Hnone. reflexivity.
Qed.

Lemma lint_contract_witness :
  lint (H := Sample.host (λ _ _, "E")) 0 idle_world = (Ok (), idle_world)
  ∧ errors <$> objects idle_world !! 0%nat
    = Some (Some {[ 2 := [(VInt 4, "old")] ]}).
Proof.
  split; [|reflexivity].
  destruct (lint_contract (H := Sample.host (λ _ _, "E")) idle_world 0 idle_linter)
    as [_ Hskip]; [reflexivity|].
  apply (Hskip (λ _ _, CmdStr "")); reflexivity.
Defined.

(** ** [get_settings] *)

Lemma union_nonempty_r {V} (m1 m2 : gmap string V) : m2 ≠ ∅ → m1 ∪ m2 ≠ ∅.
Proof.
  intros Hne Hempty. apply Hne. apply map_empty. intros k.
  assert (Hk : (m1 ∪ m2) !! k = None) by (by rewrite Hempty, lookup_empty).
  by apply lookup_union_None in Hk as [_ Hk].
Qed.

Lemma get_settings_stocked (w : World) (c : LinterClass) (l : nat)
    (d : gmap string value) :
  defaults c = Some l → dicts w !! l = Some d → d ≠ ∅ →
  get_settings c w
  = (Ok l, with_dicts
             (alter (λ d, update d (default ∅ (settings_linters w !! name c))) l)
             (next_dict w) w).
Proof.
  intros Hdef Hd Hne. unfold get_settings. rewrite bind_get_world.
  unfold defaults_or_new. rewrite Hdef.
  unfold mbind at 1. unfold M_bind. rewrite bind_get_world.
  unfold deref. rewrite Hd. simpl.
  rewrite bool_decide_eq_false_2 by done. reflexivity.
Qed.

(** C9, as the claim has it: a [defaults] that is a dict and is empty is
    not changed by [get_settings], which merges the user's settings into
    a new dict. *)
Lemma get_settings_empty_defaults :
  defaults bare_class = Some 0%nat
  ∧ (get_settings bare_class bare_world).1 = Ok 1%nat
  ∧ dicts (get_settings bare_class bare_world).2 !! 0%nat = Some ∅
  ∧ dicts (get_settings bare_class bare_world).2 !! 1%nat
    = Some {[ "disable" := VBool true ]}.
Proof. repeat split; vm_compute; reflexivity. Qed.

(** C9, amended: when the class declares a [defaults] dict that is not
    empty, [get_settings] returns that very dict and has merged the user's
    settings of the checker into it, the user's values first; a later
    call, whatever the user's settings are by then, returns the same dict
    with the earlier overrides still in it. *)
Theorem get_settings_mutates_defaults (w : World) (c : LinterClass) (l : nat)
    (d : gmap string value) :
  defaults c = Some l → dicts w !! l = Some d → d ≠ ∅ →
  ∃ w1, get_settings c w = (Ok l, w1)
    ∧ deref w1 l = default ∅ (settings_linters w !! name c) ∪ d
    ∧ ∀ u, ∃ w2, get_settings c (with_settings u w1) = (Ok l, w2)
        ∧ deref w2 l
          = default ∅ (u !! name c)
            ∪ (default ∅ (settings_linters w !! name c) ∪ d).
Proof.
  intros Hdef Hd Hne. eexists. split; [by eapply get_settings_stocked|].
  assert (Hl1 : ∀ u, dicts (with_settings u (with_dicts
             (alter (λ d, update d (default ∅ (settings_linters w !! name c))) l)
             (next_dict w) w)) !! l
           = Some (default ∅ (settings_linters w !! name c) ∪ d)).
  { intros u. simpl. by rewrite lookup_alter_eq, Hd. }
  split.
  - unfold deref. specialize (Hl1 ∅). simpl in *. by rewrite Hl1.
  - intros u. eexists. split.
    + eapply get_settings_stocked; [done | apply Hl1 | by apply union_nonempty_r].
    + unfold deref. simpl. rewrite !lookup_alter_eq, Hd. reflexivity.
Qed.

Lemma get_settings_mutates_defaults_witness :
  ∃ w1, get_settings bare_class stocked_world = (Ok 0%nat, w1)
    ∧ deref w1 0%nat !! "disable" = Some (VBool true)
    ∧ deref w1 0%nat !! "args" = Some (VStr "-q").
Proof.
  destruct (get_settings_mutates_defaults stocked_world bare_class 0
              {[ "args" := VStr "-q" ]}) as (w1 & Hget & Hmerged & _);
    [reflexivity | reflexivity | |].
  - intros Hempty. apply (f_equal (λ m, m !! "args")) in Hempty.
    vm_compute in Hempty. discriminate.
  - exists w1. split; [exact Hget|]. rewrite Hmerged. split; reflexivity.
Defined.

(** ** [assign] *)

Lemma SYNTAX_RE_search_Some (label syn : string) :
  SYNTAX_RE_search label = Some syn →
  str_truthy label = true ∧ str_truthy syn = true.
Proof.
  unfold SYNTAX_RE_search. destruct label as [|c r]; [discriminate|].
  intros Hs. split; [reflexivity|].
  destruct (after_last_slash (String c r)) as [rest|]; [|discriminate].
  simpl in Hs.
  destruct (strip_suffix ".tmLanguage" (chop_newline rest)) as [g|]; [|discriminate].
  simpl in Hs. destruct (str_truthy g) eqn:Hg; [|discriminate].
  by injection Hs as <-.
Qed.

Example SYNTAX_RE_search_examples :
  SYNTAX_RE_search "Packages/Python/Python.tmLanguage" = Some "Python"
  ∧ SYNTAX_RE_search "Packages/Python/.tmLanguage" = None
  ∧ SYNTAX_RE_search "Python.tmLanguage" = None
  ∧ SYNTAX_RE_search ("Packages/C++/C++.tmLanguage" +:+ String LF "") = Some "C++"
  ∧ SYNTAX_RE_search "Packages/Text/Plain text.tmLanguage.bak" = None.
Proof. repeat split; reflexivity. Qed.

(** The loop over the buffer's linters returns at one that records the
    syntax. *)
Lemma handles_syntax_found (l : list nat) (syn : string) (w : World)
    (o : nat) (linter : Linter) :
  (∀ o', o' ∈ l → is_Some (objects w !! o')) →
  o ∈ l → objects w !! o = Some linter → syntax linter = syn →
  handles_syntax l syn w = (Ok true, w).
Proof.
  intros Hstored Hin Ho Hsyn.
  induction l as [|a l IH]; [by apply elem_of_nil in Hin|].
  destruct (Hstored a) as [la Hla]; [by left|].
  cbn [handles_syntax]. rewrite (bind_get_object _ _ _ _ Hla).
  destruct (String.eqb_spec (syntax la) syn) as [|Hne]; [reflexivity|].
  apply IH.
  - intros o' Ho'. apply Hstored. by right.
  - apply elem_of_cons in Hin as [->|]; [|done]. congruence.
Qed.

(** [assign] returns at the linter that handles the syntax. *)
Lemma assign_handled `{Host} (w : World) (v : View)
    (label syn : string) (ls : gset nat) (o : nat) (linter : Linter) :
  view_syntax v = Some label →
  SYNTAX_RE_search label = Some syn →
  linters w !! view_id v = Some ls →
  (∀ o', o' ∈ ls → is_Some (objects w !! o')) →
  o ∈ ls → objects w !! o = Some linter → syntax linter = syn →
  assign v false w = (Ok None, with_views <[view_id v := v]> w).
Proof.
  intros Hlabel Hsearch Hls Hstored Hin Ho Hsyn.
  destruct (SYNTAX_RE_search_Some _ _ Hsearch) as [Hl Hs].
  unfold assign. cbv zeta. rewrite bind_modify, Hlabel.
  change (opt_truthy (Some label)) with (str_truthy label). rewrite Hl.
  cbn [negb default from_option id]. rewrite Hsearch.
  cbn [default from_option id].
  rewrite Hs, bind_get_world.
  cbn [linters with_views]. rewrite Hls.
  rewrite bool_decide_eq_false_2 by set_solver. cbn [negb andb].
  unfold mbind at 1. unfold M_bind.
  rewrite (handles_syntax_found _ syn _ o linter); try done.
  - intros o' Ho'%elem_of_elements. by apply Hstored.
  - by apply elem_of_elements.
Qed.

(** C6: when the buffer's set of checkers holds an instance that records
    the resolved syntax, [assign] without [reassign] changes neither the
    set nor any instance and makes no new one; it only stores the view
    again. *)
Theorem assign_same_syntax_noop `{Host} (w : World) (v : View)
    (label syn : string) (ls : gset nat) (o : nat) (linter : Linter) :
  view_syntax v = Some label →
  SYNTAX_RE_search label = Some syn →
  linters w !! view_id v = Some ls →
  (∀ o', o' ∈ ls → is_Some (objects w !! o')) →
  o ∈ ls → objects w !! o = Some linter → syntax linter = syn →
  assign v false w = (Ok None, with_views <[view_id v := v]> w)
  ∧ linters (assign v false w).2 !! view_id v = Some ls
  ∧ objects (assign v false w).2 = objects w
  ∧ next_object (assign v false w).2 = next_object w.
Proof.
  intros Hlabel Hsearch Hls Hstored Hin Ho Hsyn.
  rewrite (assign_handled w v label syn ls o linter) by done.
  simpl. by rewrite Hls.
Qed.

Lemma assign_same_syntax_noop_witness :
  assign (H := one_diagnostic) html_view false php_world
  = (Ok None, with_views <[7 := html_view]> php_world).
Proof.
  apply (assign_same_syntax_noop (H := one_diagnostic) php_world html_view
           "Packages/HTML/HTML.tmLanguage" "HTML" {[0%nat]} 0 php_linter);
    try reflexivity.
  intros o' ->%elem_of_singleton. by eexists.
Defined.

(** What [__init__] leaves: one more object, which records the syntax. *)
Lemma init_stores `{Host} (c : LinterClass) (v : View) (syn : string)
    (fname : option string) (w : World) :
  ∃ self w0,
    __init__ c v syn fname w
    = (Ok (next_object w),
       with_objects <[next_object w := self]> (S (next_object w)) w0)
    ∧ syntax self = syn ∧ objects w0 = objects w
    ∧ linters w0 = linters w ∧ views w0 = views w.
Proof.
  unfold __init__.
  destruct (str_truthy (regex c) && negb (bool_decide (is_Some _)))%bool;
    run_m; do 2 eexists; (split; [reflexivity | by repeat split]).
Qed.

(** Every linter that the loop over the classes makes is stored and
    records the syntax; the loop touches neither [persist.linters] nor
    [persist.views]. *)
Lemma instantiate_stored `{Host} (classes : list (string * LinterClass))
    (v : View) (syn : string) (acc : gset nat) (w : World) :
  (∀ o, o ∈ acc → ∃ l, objects w !! o = Some l ∧ syntax l = syn) →
  ∃ ls w',
    instantiate classes v syn acc w = (Ok ls, w')
    ∧ (∀ o, o ∈ ls → ∃ l, objects w' !! o = Some l ∧ syntax l = syn)
    ∧ linters w' = linters w ∧ views w' = views w.
Proof.
  revert acc w. induction classes as [|[n c] rest IH]; intros acc w Hacc.
  - exists acc, w. by repeat split.
  - cbn [instantiate]. destruct (can_lint c syn); [|by apply IH].
    destruct (init_stores c v syn (view_file_name v) w)
      as (self & w0 & Hinit & Hsyn & Hobj & Hlin & Hviews).
    unfold mbind at 1. unfold M_bind at 1. rewrite Hinit.
    destruct (IH ({[next_object w]} ∪ acc)
                 (with_objects <[next_object w := self]> (S (next_object w)) w0))
      as (ls & w' & Hrest & Hstored & Hlin' & Hviews').
    { intros o Ho. cbn [objects with_objects].
      destruct (decide (o = next_object w)) as [Heq|Hne].
      - subst o. exists self. by rewrite lookup_insert_eq.
      - rewrite lookup_insert_ne by done. rewrite Hobj. apply Hacc.
        by apply elem_of_union in Ho as [Ho%elem_of_singleton|Ho]. }
    exists ls, w'. rewrite Hrest. repeat split; [done|..].
    + by rewrite Hlin'.
    + by rewrite Hviews'.
Qed.

Lemma then_None_not_Some {A} (m : M unit) (w w' : World) (x : A) :
  (m;; mret None) w ≠ (Ok (Some x), w').
Proof. run_m. by destruct (m w) as [[[]|e] w0]. Qed.

Lemma handles_syntax_world (l : list nat) (syn : string) (w w' : World)
    (r : result bool) :
  handles_syntax l syn w = (r, w') → w' = w.
Proof.
  induction l as [|a l IH]; cbn [handles_syntax]; run_m; unfold get_object.
  - by intros [= _ <-].
  - destruct (objects w !! a) as [la|]; [|by intros [= _ <-]].
    destruct (String.eqb (syntax la) syn); [by intros [= _ <-] | apply IH].
Qed.

(** X23: assignment twice in a row: when [assign] has given a buffer a
    set of checkers that is not empty, a second [assign] without [reassign]
    returns [None], keeps that set and makes no instance. *)
Lemma assign_twice `{Host} (v : View) (reassign : bool) (w w1 : World)
    (ls : gset nat) :
  assign v reassign w = (Ok (Some ls), w1) → ls ≠ ∅ →
  assign v false w1 = (Ok None, with_views <[view_id v := v]> w1)
  ∧ linters w1 !! view_id v = Some ls.
Proof.
  unfold assign at 1. cbv zeta. rewrite bind_modify.
  destruct (view_syntax v) as [label|] eqn:Hlabel; cbn [opt_truthy];
    [|by intros ?%then_None_not_Some].
  destruct (str_truthy label); cbn [negb];
    [|by intros ?%then_None_not_Some].
  cbn [default from_option id].
  destruct (SYNTAX_RE_search label) as [syn|] eqn:Hsearch;
    cbn [default from_option id];
    [|by intros ?%then_None_not_Some].
  destruct (SYNTAX_RE_search_Some _ _ Hsearch) as [_ ->].
  rewrite bind_get_world. unfold mbind at 1. unfold M_bind at 1.
  match goal with
  | |- context [match ?m ?w0 with _ => _ end] =>
      destruct (m w0) as [[[]|] w2] eqn:Hhandled
  end; [discriminate| |discriminate].
  assert (w2 = with_views <[view_id v := v]> w) as ->.
  { destruct (linters _ !! view_id v) as [ls0|]; [|by injection Hhandled].
    destruct (negb _ && negb _)%bool; [|by injection Hhandled].
    by apply handles_syntax_world in Hhandled. }
  destruct (instantiate_stored (map_to_list (languages (with_views <[view_id v := v]> w)))
              v syn ∅ (with_views <[view_id v := v]> w))
    as (ls' & w' & Hinst & Hstored & Hlin & Hviews); [set_solver|].
  unfold mbind at 1. unfold M_bind at 1. rewrite Hinst. run_m.
  intros [= <- <-] Hne.
  apply set_choose_L in Hne as [o Ho].
  destruct (Hstored o Ho) as (l & Hl & Hsyn).
  split; [|cbn; by rewrite lookup_insert_eq].
  apply (assign_handled _ v label syn ls' o l); try done.
  - cbn. by rewrite lookup_insert_eq.
  - intros o' Ho'. destruct (Hstored o' Ho') as (l' & Hl' & _). by exists l'.
Qed.

(** ** A whole run *)

(** The checker's [3:5: unused variable x] becomes the diagnostic at row 2,
    column 4. *)
Example lint_view_unused_variable :
  let w := (assign_and_lint (H := unused_variable) sample_view
              ("a = 1" +:+ String LF "b = 2" +:+ String LF "x = 3")
              (pyflakes_world 1)).2 in
  errors <$> objects w !! 0%nat
  = Some (Some {[ 2 := [(VInt 4, "unused variable x")] ]})
  ∧ highlight <$> objects w !! 0%nat
    = Some {| hl_args := Some ("a = 1" +:+ String LF "b = 2" +:+ String LF "x = 3", true);
              hl_calls := [Range 2 (VInt 4); Line 2] |}.
Proof. cbv zeta. split; vm_compute; reflexivity. Qed.

(** With a tab width of 4 and a tab at the start of line 3, the column 4
    of the checker is the character 1 of the line. *)
Example lint_view_tab_width_4 :
  let w := (assign_and_lint (H := unused_variable) sample_view
              ("a = 1" +:+ String LF "b = 2" +:+ String LF (String tab "x = 3"))
              (pyflakes_world 4)).2 in
  errors <$> objects w !! 0%nat
  = Some (Some {[ 2 := [(VInt 1, "unused variable x")] ]}).
Proof. vm_compute. reflexivity. Qed.

(** ** A pattern that does not compile *)

Lemma find_errors_uncompiled (multiline : bool) (s output : string) :
  output ≠ "" →
  find_errors multiline (ReStr s) output = Throw AttributeError.
Proof.
  intros Hout. unfold find_errors. destruct multiline; [reflexivity|].
  by destruct (splitlines output) eqn:Hlines;
    [apply splitlines_nonempty in Hlines|].
Qed.

(** [lint] on an instance whose [regex] is still the pattern text raises
    [AttributeError] once the checker has printed something. *)
Lemma lint_uncompiled_raises `{Host} (w : World) (o : nat) (self : Linter)
    (s text : string) (cv : CmdVal) :
  objects w !! o = Some self →
  self_regex self = ReStr s → str_truthy s = true →
  lang_truthy (language (cls self)) = true →
  cmd (cls self) = CmdStatic cv → cmdval_truthy cv = true →
  code self = Some text →
  opt_truthy (tempfile_suffix (cls self)) = false →
  str_truthy (util_communicate (as_tuple cv) text) = true →
  lint o w
  = (Raise AttributeError,
     with_event (DebugOutput (name (cls self)) (util_communicate (as_tuple cv) text))
       (with_event (Communicate (as_tuple cv) text) w)).
Proof.
  intros Ho Hre Hs Hlang Hcmd Hcv Hcode Htmp Hout. unfold lint.
  rewrite (bind_get_object _ _ _ _ Ho), Hlang, Hcmd, Hre.
  change (regex_truthy (ReStr s)) with (str_truthy s).
  change (cmd_truthy (CmdStatic cv)) with (cmdval_truthy cv).
  rewrite Hcv, Hs, Hcode. cbn [andb negb].
  unfold run. rewrite Htmp. unfold communicate.
  run_m. rewrite Hout. cbn [negb].
  rewrite find_errors_uncompiled; [reflexivity|]. by apply str_truthy_true.
Qed.

Lemma init_failed_compile `{Host} (c : LinterClass) (v : View) (syn : string)
    (fname : option string) (w : World) :
  str_truthy (regex c) = true →
  re_compile (regex c)
    (if multiline c then Z.lor (re_flags c) MULTILINE else re_flags c) = None →
  __init__ c v syn fname w
  = (Ok (next_object w),
     with_objects
       <[next_object w :=
           {| cls := c; view := v; syntax := syn; filename := fname;
              self_regex := ReStr (regex c);
              self_re_flags :=
                if multiline c then Z.lor (re_flags c) MULTILINE else re_flags c;
              highlight := {| hl_args := None; hl_calls := [] |};
              errors := None; code := None |}]>
       (S (next_object w))
       (with_event (DebugCompile (language c)) w)).
Proof.
  intros Hre Hcompile. unfold __init__. rewrite Hre. cbn [andb].
  rewrite Hcompile. reflexivity.
Qed.

(** C4, as the code has it: when the pattern of a class does not compile,
    [__init__] returns and logs it, and the instance keeps the pattern
    text as its [regex]; the checker is not disabled, and its next [lint]
    raises [AttributeError] as soon as the tool prints something. *)
Theorem lint_after_failed_compile_raises `{Host} (c : LinterClass) (v : View)
    (syn : string) (fname : option string) (w : World) (text : string)
    (cv : CmdVal) :
  str_truthy (regex c) = true →
  re_compile (regex c)
    (if multiline c then Z.lor (re_flags c) MULTILINE else re_flags c) = None →
  lang_truthy (language c) = true →
  cmd c = CmdStatic cv → cmdval_truthy cv = true →
  opt_truthy (tempfile_suffix c) = false →
  str_truthy (util_communicate (as_tuple cv) text) = true →
  ∃ w1 w2,
    __init__ c v syn fname w = (Ok (next_object w), w1)
    ∧ DebugCompile (language c) ∈ events w1
    ∧ (reset (next_object w) text None;; lint (next_object w)) w1
      = (Raise AttributeError, w2).
Proof.
  intros Hre Hcompile Hlang Hcmd Hcv Htmp Hout.
  eexists. eexists. split; [by apply init_failed_compile|].
  split; [simpl; set_solver|].
  unfold reset, set_object. run_m.
  match goal with
  | |- lint _ ?w' = _ =>
      assert (Hobj : ∃ self, objects w' !! next_object w = Some self
                ∧ cls self = c ∧ self_regex self = ReStr (regex c)
                ∧ code self = Some text)
  end.
  { eexists. split.
    - cbn [objects with_objects]. rewrite !lookup_alter_eq, lookup_insert_eq.
      reflexivity.
    - done. }
  destruct Hobj as (self & Hself & Hcls & Hregex & Hcode).
  rewrite (lint_uncompiled_raises _ _ self (regex c) text cv);
    rewrite ?Hcls; done.
Qed.

Lemma lint_after_failed_compile_raises_witness :
  (__init__ (H := one_diagnostic) broken_class sample_view "Python" None
     empty_world).1 = Ok 0%nat
  ∧ ((reset 0 "x = 1" None;; lint (H := one_diagnostic) 0)
       (__init__ (H := one_diagnostic) broken_class sample_view "Python" None
          empty_world).2).1
    = Raise AttributeError.
Proof.
  destruct (lint_after_failed_compile_raises (H := one_diagnostic)
              broken_class sample_view "Python" None empty_world "x = 1"
              (CmdStr "broken"))
    as (w1 & w2 & Hinit & _ & Hlint); try reflexivity.
  rewrite Hinit. split; [reflexivity|].
  change (next_object empty_world) with 0%nat in Hlint.
  cbn [snd]. by rewrite Hlint.
Defined.

(** ** [lint_view] and a disabled checker *)

(** [get_settings] writes to the store of dicts only. *)
Lemma get_settings_frame (c : LinterClass) (w : World) :
  objects (get_settings c w).2 = objects w
  ∧ events (get_settings c w).2 = events w
  ∧ linters (get_settings c w).2 = linters w.
Proof.
  unfold get_settings, defaults_or_new, new_dict. run_m.
  destruct (defaults c) as [l|]; [destruct (bool_decide (deref w l = ∅))|];
    by repeat split.
Qed.

Lemma get_settings_Ok (c : LinterClass) (w : World) :
  ∃ l, (get_settings c w).1 = Ok l.
Proof.
  unfold get_settings, defaults_or_new, new_dict. run_m.
  destruct (defaults c) as [l|]; [destruct (bool_decide (deref w l = ∅))|];
    by eexists.
Qed.

(** X25: the first loop of [lint_view] skips a linter that its settings
    disable: no reset, no run, nothing logged, and its object is as it
    was. *)
Lemma lint_unscoped_disabled `{Host} (code fname : string) (o : nat)
    (self : Linter) (w : World) :
  objects w !! o = Some self →
  (∀ l, (get_settings (cls self) w).1 = Ok l →
        truthy (default VNone (deref (get_settings (cls self) w).2 l !! "disable"))
        = true) →
  (lint_unscoped code fname o w).1 = Ok ()
  ∧ objects (lint_unscoped code fname o w).2 = objects w
  ∧ events (lint_unscoped code fname o w).2 = events w.
Proof.
  intros Ho Hdisable.
  destruct (get_settings_frame (cls self) w) as (Hobj & Hev & _).
  destruct (get_settings_Ok (cls self) w) as [l Hl].
  specialize (Hdisable l Hl).
  assert (Heq : lint_unscoped code fname o w
                = (Ok (), (get_settings (cls self) w).2)).
  { unfold lint_unscoped, settings, dict_get, get_object. run_m. rewrite Ho.
    destruct (get_settings (cls self) w) as [r w1]. simpl in *.
    subst r. by rewrite Hdisable. }
  rewrite Heq. by repeat split.
Qed.

(** C3, as the code has it: the second loop of [lint_view] does not look
    at [disable]. A checker with a selector that the user has disabled,
    and whose selector is among the sections, is reset and run, and the
    diagnostics of its earlier run are replaced. *)
Theorem lint_view_runs_disabled_scoped :
  let before := php_world in
  let after := (lint_view (H := one_diagnostic) 7 (Some "a.html") php_code
                  php_sections before).2 in
  ((s ← settings 0; dict_get s "disable") before).1 = Ok (VBool true)
  ∧ errors <$> objects before !! 0%nat = Some (Some {[ 2 := [(VInt 4, "old")] ]})
  ∧ errors <$> objects after !! 0%nat = Some (Some {[ 0 := [(VInt 0, "fresh")] ]})
  ∧ Communicate ["php"; "-l"] php_code ∈ events after.
Proof.
  cbv zeta. split; [vm_compute; reflexivity|]. split; [reflexivity|].
  split; [vm_compute; reflexivity|]. vm_compute. set_solver.
Qed.

(** * Further properties of the code *)

(** ** [find_errors] without [multiline] *)

Lemma Forall_is_ok {A B} (f : A → result B) (l : list A) :
  forallb (λ a, is_ok (f a)) l = true → Forall (λ a, ∃ b, f a = Ok b) l.
Proof.
  induction l as [|a l IH]; simpl; [constructor|].
  intros [Ha Hl]%andb_prop. constructor; [|by apply IH].
  destruct (f a) as [b|]; [by exists b | done].
Qed.

(** X1: without [multiline], and with a pattern that compiled, the
    extraction yields one tuple per line of [output.splitlines()], in the
    order of the lines, when the matches all split: the tuple of the match
    of the stripped line at its start, or the empty tuple. *)
Theorem find_errors_one_per_line (p : Pattern) (output : string) :
  Forall (λ line, ∃ r, match_error (RePat p) (strip line) = Ok r)
         (splitlines output) →
  length (yielded (find_errors false (RePat p) output))
  = length (splitlines output)
  ∧ thrown (find_errors false (RePat p) output) = None
  ∧ Forall2 (λ line r,
       match re_match p (strip line) with
       | Some m => split_match (Some m) = Ok r
       | None => r = no_match
       end)
      (splitlines output) (yielded (find_errors false (RePat p) output)).
Proof.
  intros Hall. unfold find_errors.
  destruct (yield_each_ok _ _ Hall) as [Hthrown Hyield].
  split; [symmetry; eapply Forall2_length; exact Hyield|].
  split; [exact Hthrown|].
  eapply Forall2_impl; [exact Hyield|].
  intros line r Hr. unfold match_error in Hr.
  destruct (re_match p (strip line)); [done|].
  simpl in Hr. by injection Hr as <-.
Qed.

Lemma find_errors_one_per_line_witness :
  length (yielded (find_errors false (RePat (Sample.line_col_error 0))
                     ("1:2: a" +:+ String LF "note" +:+ String LF "3:4: b")))
  = 3%nat.
Proof.
  replace 3%nat with
    (length (splitlines ("1:2: a" +:+ String LF "note" +:+ String LF "3:4: b")))
    by reflexivity.
  apply (find_errors_one_per_line (Sample.line_col_error 0)).
  apply Forall_is_ok. vm_compute. reflexivity.
Defined.

(** ** [split_match]: the numbers *)

(** X2: with a group [line] that captured the text [sl], [split_match]
    raises [ValueError] when [sl] is not a number; with a number [L] and a
    group [col] that captured a text [sc] that is not empty, it raises
    [ValueError] when [sc] is not a number and returns the row [L - 1] and
    the column [C - 1] when [sc] is the number [C]; a [col] that captured
    the empty text stays the empty string. *)
Theorem split_match_numbers (m : Match) (sl : string) :
  groupdict m !! "line" = Some (Some sl) →
  (int_of_str sl = None → split_match (Some m) = Raise ValueError)
  ∧ (∀ L sc, int_of_str sl = Some L →
       groupdict m !! "col" = Some (Some sc) →
       match sc, int_of_str sc with
       | EmptyString, _ =>
           ∃ r, split_match (Some m) = Ok r ∧ rm_row r = Some (L - 1)
                ∧ rm_col r = VStr ""
       | _, Some C =>
           ∃ r, split_match (Some m) = Ok r ∧ rm_row r = Some (L - 1)
                ∧ rm_col r = VInt (C - 1)
       | _, None => split_match (Some m) = Raise ValueError
       end).
Proof.
  intros Hline. rewrite split_match_Some. simpl. rewrite Hline. simpl.
  split.
  - by intros ->.
  - intros L sc -> Hcol. rewrite Hcol. simpl.
    destruct sc as [|c sc]; [by eexists|].
    simpl. destruct (int_of_str (String c sc)); [by eexists | done].
Qed.

Lemma split_match_numbers_witness :
  ∃ r, split_match (Some {| span := (0, 6);
                            groupdict := <["line" := Some "3"]>
                              (<["col" := Some "5"]> (<["error" := Some "x"]> ∅)) |})
       = Ok r ∧ rm_row r = Some 2 ∧ rm_col r = VInt 4.
Proof.
  destruct (split_match_numbers
              {| span := (0, 6);
                 groupdict := <["line" := Some "3"]>
                   (<["col" := Some "5"]> (<["error" := Some "x"]> ∅)) |} "3")
    as [_ Hcol]; [reflexivity|].
  exact (Hcol 3 "5" eq_refl eq_refl).
Defined.

(** ** Column correction: what the loop keeps *)

Lemma has_tab_cons c r :
  has_tab (String c r) = false → Ascii.eqb c tab = false ∧ has_tab r = false.
Proof. simpl. by intros [-> ->]%orb_false_elim. Qed.

Lemma tab_loop_no_tab (tw col : Z) (rest : string) (i : Z) :
  has_tab rest = false → i ≤ col →
  tab_loop tw rest i 0 (VInt col) = Ok (VInt col).
Proof.
  revert i. induction rest as [|c r IH]; intros i Htab Hi; [done|].
  apply has_tab_cons in Htab as [Hc Hr].
  cbn [tab_loop minus mbind result_bind rbind]. rewrite Hc.
  rewrite Z.sub_0_r. destruct (Z.leb_spec col i).
  - do 2 f_equal. lia.
  - apply IH; [done | lia].
Qed.

(** X3: on a line without a tab, a column that is not negative is left
    as it is, whatever the tab width. *)
Theorem correct_column_no_tab (tab_width col : Z) (line : string) :
  has_tab line = false → 0 ≤ col →
  correct_column tab_width line (VInt col) = Ok (VInt col).
Proof.
  intros Htab Hcol. unfold correct_column.
  destruct (1 <? tab_width); [|done]. by apply tab_loop_no_tab.
Qed.

Lemma correct_column_no_tab_witness :
  correct_column 4 "x = 3" (VInt 2) = Ok (VInt 2).
Proof. apply (correct_column_no_tab 4 2 "x = 3"); [reflexivity | lia]. Defined.

Lemma tab_loop_bounds (tw col : Z) (rest : string) (i diff : Z) :
  1 ≤ tw → 0 ≤ diff →
  ∃ r, tab_loop tw rest i diff (VInt col) = Ok (VInt r)
       ∧ (r = col ∨ i ≤ r < i + len rest)
       ∧ (i ≤ col → i ≤ r ≤ col)
       ∧ (col < i → rest ≠ "" → r = i).
Proof.
  intros Htw. revert i diff. induction rest as [|c rest IH]; intros i diff Hdiff.
  - exists col. repeat split; [by left | lia | lia | done].
  - cbn [tab_loop minus mbind result_bind rbind].
    set (diff' := if Ascii.eqb c tab then diff + (tw - 1) else diff).
    assert (Hdiff' : 0 ≤ diff') by (subst diff'; destruct (Ascii.eqb c tab); lia).
    assert (Hlen : len (String c rest) = 1 + len rest)
      by (unfold len; cbn [String.length]; lia).
    destruct (Z.leb_spec (col - diff') i) as [Hstop|Hgo].
    + exists i. rewrite Hlen. unfold len.
      repeat split; [right; lia | lia | lia].
    + destruct (IH (i + 1) diff' Hdiff') as (r & -> & Hr & Hle & _).
      exists r. rewrite Hlen. repeat split.
      * destruct Hr; [by left | right; lia].
      * lia.
      * lia.
      * lia.
Qed.

(** X4: with a tab width above 1, the correction never moves a column to
    the right: a column that is not negative is corrected to a column
    between 0 and itself, and a negative one to 0 when the line is not
    empty; the result is the raw column or an index of the line. *)
Theorem correct_column_bounds (tab_width col : Z) (line : string) :
  1 < tab_width →
  ∃ r, correct_column tab_width line (VInt col) = Ok (VInt r)
       ∧ (r = col ∨ 0 ≤ r < len line)
       ∧ (0 ≤ col → 0 ≤ r ≤ col)
       ∧ (col < 0 → line ≠ "" → r = 0).
Proof.
  intros Htw. unfold correct_column. destruct (Z.ltb_spec 1 tab_width); [|lia].
  destruct (tab_loop_bounds tab_width col line 0 0) as (r & Hr & H1 & H2 & H3);
    [lia | lia |].
  exists r. split; [done|]. split; [|done]. destruct H1; [by left | right; lia].
Qed.

Lemma correct_column_bounds_witness :
  ∃ r, correct_column 4 tab_foo (VInt 5) = Ok (VInt r) ∧ 0 ≤ r ≤ 5.
Proof.
  destruct (correct_column_bounds 4 5 tab_foo) as (r & Hr & _ & Hle & _); [lia|].
  exists r. split; [exact Hr | apply Hle; lia].
Defined.

(** ** Merging the diagnostics of a region *)

Lemma shift_list_lookup (line_offset : Z) (l : list (Z * list (value * string)))
    (acc : Errors) (k : Z) :
  NoDup l.*1 →
  foldl (λ errors '(line, error), <[line + line_offset := error]> errors) acc l !! k
  = match (list_to_map l : Errors) !! (k - line_offset) with
    | Some e => Some e
    | None => acc !! k
    end.
Proof.
  revert acc. induction l as [|[a e] l IH]; intros acc Hnd; [done|].
  apply NoDup_cons in Hnd as [Ha Hnd]. cbn [foldl].
  rewrite list_to_map_cons, IH by done. cbn [fst snd] in *.
  destruct (decide (a = k - line_offset)) as [->|Hne].
  - rewrite lookup_insert_eq.
    rewrite (not_elem_of_list_to_map_1 (M := gmap Z)) by done.
    replace (k - line_offset + line_offset) with k by lia.
    apply lookup_insert_eq.
  - rewrite (lookup_insert_ne (list_to_map l)) by done.
    destruct (list_to_map l !! (k - line_offset)); [done|].
    rewrite lookup_insert_ne by lia. done.
Qed.

(** X5: merging the diagnostics [d] of a region at [line_offset] into the
    dict [errors] puts every row of [d] at its row plus the offset, where
    it replaces what an earlier region left, and keeps the other rows. *)
Theorem shift_into_lookup (line_offset : Z) (d errs : Errors) (k : Z) :
  shift_into line_offset d errs !! k
  = match d !! (k - line_offset) with
    | Some e => Some e
    | None => errs !! k
    end.
Proof.
  unfold shift_into. rewrite shift_list_lookup by apply NoDup_fst_map_to_list.
  by rewrite list_to_map_to_list.
Qed.

(** ** [SYNTAX_RE] *)

Lemma append_cons (c : ascii) (a b : string) :
  String c a +:+ b = String c (a +:+ b).
Proof. reflexivity. Qed.

Lemma append_nil (b : string) : "" +:+ b = b.
Proof. reflexivity. Qed.

Lemma length_append (a b : string) :
  String.length (a +:+ b) = (String.length a + String.length b)%nat.
Proof.
  induction a as [|c a IH]; [done|]. rewrite append_cons. simpl. by rewrite IH.
Qed.

Lemma has_slash_append (a b : string) :
  has_slash (a +:+ b) = (has_slash a || has_slash b)%bool.
Proof.
  induction a as [|c a IH]; [done|]. rewrite append_cons. simpl.
  by rewrite IH, orb_assoc.
Qed.

Lemma after_last_slash_no_slash (t : string) :
  has_slash t = false → after_last_slash t = None.
Proof.
  induction t as [|c t IH]; [done|]. simpl.
  intros [Hc Ht]%orb_false_elim. by rewrite IH, Hc.
Qed.

Lemma after_last_slash_append (pre t : string) :
  has_slash t = false → after_last_slash (pre +:+ String "/" t) = Some t.
Proof.
  intros Ht. induction pre as [|c pre IH].
  - rewrite append_nil. simpl. by rewrite after_last_slash_no_slash.
  - rewrite append_cons. simpl. by rewrite IH.
Qed.

Lemma substring_whole (b : string) : substring 0 (String.length b) b = b.
Proof. induction b as [|c b IH]; [done|]. simpl. by rewrite IH. Qed.

Lemma substring_append_r (a b : string) :
  substring (String.length a) (String.length b) (a +:+ b) = b.
Proof.
  induction a as [|c a IH].
  - rewrite append_nil. apply substring_whole.
  - rewrite append_cons. simpl. exact IH.
Qed.

Lemma substring_append_l (a b : string) :
  substring 0 (String.length a) (a +:+ b) = a.
Proof.
  induction a as [|c a IH].
  - rewrite append_nil. by destruct b.
  - rewrite append_cons. simpl. by rewrite IH.
Qed.

Lemma strip_suffix_append (suffix g : string) :
  strip_suffix suffix (g +:+ suffix) = Some g.
Proof.
  unfold strip_suffix. rewrite length_append.
  replace (String.length g + String.length suffix - String.length suffix)%nat
    with (String.length g) by lia.
  rewrite substring_append_r, String.eqb_refl, substring_append_l.
  by destruct (Nat.leb_spec (String.length suffix)
                 (String.length g + String.length suffix)); [|lia].
Qed.

Lemma rev_app_append (a b acc : string) :
  String.rev_app (a +:+ b) acc = String.rev_app b (String.rev_app a acc).
Proof.
  revert acc. induction a as [|c a IH]; intros acc; [done|].
  rewrite append_cons. simpl. apply IH.
Qed.

Lemma chop_newline_tmLanguage (g : string) :
  chop_newline (g +:+ ".tmLanguage") = g +:+ ".tmLanguage".
Proof. unfold chop_newline, String.rev. by rewrite rev_app_append. Qed.

(** X6: the syntax label of a grammar file [dir/NAME.tmLanguage]
    resolves to [NAME], whatever the directory, for every name that is not
    empty and holds no slash. *)
Theorem SYNTAX_RE_search_grammar (dir name : string) :
  name ≠ "" → has_slash name = false →
  SYNTAX_RE_search (dir +:+ String "/" (name +:+ ".tmLanguage")) = Some name.
Proof.
  intros Hne Hslash. unfold SYNTAX_RE_search.
  rewrite after_last_slash_append
    by (by rewrite has_slash_append, Hslash).
  simpl. rewrite chop_newline_tmLanguage, strip_suffix_append. simpl.
  by apply str_truthy_true in Hne as ->.
Qed.

Lemma SYNTAX_RE_search_grammar_witness :
  SYNTAX_RE_search "Packages/Python/Python.tmLanguage" = Some "Python".
Proof.
  apply (SYNTAX_RE_search_grammar "Packages/Python" "Python"); done.
Defined.

(** ** Frames: what a method leaves as it was *)

Lemma log_extends_callbacks (es es' : list Event) :
  log_extends es es' → callbacks es' = callbacks es.
Proof.
  intros (more & -> & Hmore). unfold callbacks in *.
  by rewrite List.filter_app, Hmore, app_nil_r.
Qed.

Lemma lint_frame_pass (S : gset nat) (o : nat) (w w' : World) :
  o ∈ S → lint_frame o w w' → pass_frame S w w'.
Proof.
  intros Ho []. split; try done.
  - intros o' Ho'. apply lf_others0. by intros ->.
  - intros o'. destruct (decide (o' = o)) as [->|Hne].
    + destruct lf_self0 as [l l' []|]; simpl; [by f_equal | done].
    + by rewrite lf_others0.
Qed.

Section preserves.
Context (R : World → World → Prop) `{!PreOrder R}.

Lemma preserves_mret {A} (a : A) : preserves R (mret a).
Proof. intros w. reflexivity. Qed.

Lemma preserves_raise {A} (e : exn) : preserves R (raise e : M A).
Proof. intros w. reflexivity. Qed.

Lemma preserves_lift {A} (r : result A) : preserves R (lift r).
Proof. intros w. reflexivity. Qed.

Lemma preserves_get_world : preserves R get_world.
Proof. intros w. reflexivity. Qed.

Lemma preserves_get_object (o : nat) : preserves R (get_object o).
Proof. intros w. unfold get_object. destruct (objects w !! o); reflexivity. Qed.

Lemma preserves_bind {A B} (m : M A) (k : A → M B) :
  preserves R m → (∀ a, preserves R (k a)) → preserves R (m ≫= k).
Proof.
  intros Hm Hk w. unfold mbind, M_bind. specialize (Hm w).
  destruct (m w) as [[a|e] w1]; simpl in *; [|done].
  etrans; [exact Hm | apply Hk].
Qed.

Lemma preserves_for_each {A} (l : list A) (body : A → M unit) :
  (∀ a, a ∈ l → preserves R (body a)) → preserves R (for_each l body).
Proof.
  induction l as [|a l IH]; intros Hbody; cbn [for_each].
  - apply preserves_mret.
  - apply preserves_bind; [apply Hbody; by left|].
    intros _. apply IH. intros b Hb. apply Hbody. by right.
Qed.

Lemma preserves_for_gen {A} (g : gen A) (body : A → M unit) :
  (∀ a, preserves R (body a)) → preserves R (for_gen g body).
Proof.
  intros Hbody. induction g as [|a g IH|e]; cbn [for_gen].
  - apply preserves_mret.
  - apply preserves_bind; [apply Hbody | by intros _].
  - apply preserves_raise.
Qed.

End preserves.

Lemma preserves_weaken {A} (R R' : World → World → Prop) (m : M A) :
  (∀ w w', R w w' → R' w w') → preserves R m → preserves R' m.
Proof. intros HR Hm w. apply HR, Hm. Qed.

(** *** [lint] and what it calls *)

Lemma lint_frame_emit (o : nat) (e : Event) :
  is_callback e = false → preserves (lint_frame o) (emit e).
Proof.
  intros He w. split; try done. exists [e]. split; [done|].
  unfold callbacks. simpl. by rewrite He.
Qed.

(** One change of the object [o] that makes it grow. *)
Lemma lint_frame_alter (o : nat) (f : Linter → Linter) (w : World) :
  (∀ s, objects w !! o = Some s → linter_grow s (f s)) →
  lint_frame o w (with_objects (alter f o) (next_object w) w).
Proof.
  intros Hf. split; try done.
  - intros o' Ho'. simpl. by rewrite lookup_alter_ne.
  - simpl. rewrite lookup_alter_eq.
    destruct (objects w !! o) as [s|]; constructor. by apply Hf.
Qed.

Lemma hl_call_on_grow (c : hl_call) (s : Linter) :
  linter_grow s (set_highlight (hl_call_on (highlight s) c) s).
Proof. split; try done. simpl. by apply prefix_app_r. Qed.

Lemma lint_frame_highlight_call (o : nat) (c : hl_call) :
  preserves (lint_frame o) (highlight_call o c).
Proof.
  intros w. unfold highlight_call, set_object, modify. simpl.
  apply lint_frame_alter. intros s _. apply hl_call_on_grow.
Qed.

Lemma set_errors_append_grow (s : Linter) (d : Errors) (line : Z)
    (e : value * string) :
  errors s = Some d →
  linter_grow s (set_errors (Some (<[line := (default [] (d !! line) ++ [e])%list]> d)) s).
Proof.
  intros Hd. split; try done. simpl. rewrite Hd. simpl.
  intros k l Hk. destruct (decide (k = line)) as [->|Hne].
  - exists [e]. by rewrite lookup_insert_eq, Hk.
  - exists []. by rewrite lookup_insert_ne, app_nil_r.
Qed.

(** [error] with the object and its dict at hand. *)
Lemma error_stored (o : nat) (line : Z) (col err : value)
    (w : World) (s : Linter) (d : Errors) :
  objects w !! o = Some s → errors s = Some d →
  error o line col err w
  = (Ok (),
     with_objects
       (alter (set_errors
                 (Some (<[line := (default [] (d !! line)
                                   ++ [(or_zero col, str err)])%list]> d))) o)
       (next_object w)
       (with_objects
          (alter (λ self, set_highlight (hl_call_on (highlight self) (Line line)) self) o)
          (next_object w) w)).
Proof.
  intros Hs Hd. unfold error, highlight_call, set_object, get_object. run_m.
  cbn [objects with_objects]. rewrite lookup_alter_eq, Hs.
  cbn [fmap option_fmap option_map errors set_highlight]. rewrite Hd.
  by destruct (d !! line).
Qed.

Lemma lint_frame_error (o : nat) (line : Z) (col err : value) :
  preserves (lint_frame o) (error o line col err).
Proof.
  intros w. destruct (objects w !! o) as [s|] eqn:Hs.
  - destruct (errors s) as [d|] eqn:Hd.
    + rewrite (error_stored o line col err w s d) by done. cbn [snd].
      etrans; [apply lint_frame_alter; intros; apply hl_call_on_grow|].
      match goal with |- lint_frame _ ?w1 _ => change (next_object w) with (next_object w1) end.
      apply lint_frame_alter. cbn [objects with_objects].
      rewrite lookup_alter_eq, Hs. intros s' [= <-].
      by apply set_errors_append_grow.
    + unfold error, highlight_call, set_object, get_object. run_m.
      cbn [objects with_objects]. rewrite lookup_alter_eq, Hs.
      cbn [fmap option_fmap option_map errors set_highlight]. rewrite Hd.
      cbn [snd]. apply lint_frame_alter. intros; apply hl_call_on_grow.
  - unfold error, highlight_call, set_object, get_object. run_m.
    cbn [objects with_objects]. rewrite lookup_alter_eq, Hs. cbn.
    apply lint_frame_alter. intros; apply hl_call_on_grow.
Qed.

Lemma lint_frame_run `{Host} (o : nat) (self : Linter) (cmd : list string)
    (text : string) :
  preserves (lint_frame o) (run self cmd text).
Proof.
  unfold run, tmpfile, communicate.
  destruct (opt_truthy _).
  - apply preserves_raise; apply _.
  - apply preserves_bind; [apply _ | by apply lint_frame_emit |].
    intros _. apply preserves_mret; apply _.
Qed.

Lemma lint_frame_record_match `{Host} (o : nat) (m : RawMatch) :
  preserves (lint_frame o) (record_match o m).
Proof.
  unfold record_match.
  destruct (rm_match m); [destruct (rm_row m) as [row|]|];
    try (apply preserves_mret; apply _).
  apply preserves_bind; [apply _ | apply preserves_get_object; apply _ |].
  intros self. apply preserves_bind; [apply _ | | intros; apply lint_frame_error].
  assert (Hcol : ∀ col, preserves (lint_frame o)
    (col ← (if 1 <? tab_width (cls self)
            then let '(start, stop) := full_line (highlight self) row in
                 code ← lift match code self with
                             | Some c => Ok c
                             | None => Raise AttributeError
                             end;
                 lift (tab_loop (tab_width (cls self)) (slice code start stop) 0 0 col)
            else mret col);
     highlight_call o (Range row col);; mret col)).
  { intros col. apply preserves_bind; [apply _ | |].
    - destruct (1 <? _); [|apply preserves_mret; apply _].
      destruct (full_line _ _).
      apply preserves_bind; [apply _ | apply preserves_lift; apply _ |].
      intros. apply preserves_lift; apply _.
    - intros. apply preserves_bind; [apply _ | apply lint_frame_highlight_call |].
      intros. apply preserves_mret; apply _. }
  destruct (rm_col m); try apply Hcol.
  apply preserves_bind; [apply _ | | intros; apply preserves_mret; apply _].
  destruct (truthy _); apply lint_frame_highlight_call.
Qed.

(** [lint] on [o] keeps [lint_frame o], whatever the tool prints and also
    when it raises. *)
Lemma lint_preserves `{Host} (o : nat) : preserves (lint_frame o) (lint o).
Proof.
  unfold lint.
  apply preserves_bind; [apply _ | apply preserves_get_object; apply _ |].
  intros self. destruct (negb _); [apply preserves_raise; apply _|].
  destruct (negb _); [apply preserves_mret; apply _|].
  apply preserves_bind; [apply _ | apply preserves_lift; apply _ |].
  intros text. apply preserves_bind; [apply _ | apply lint_frame_run |].
  intros output. destruct (negb _); [apply preserves_mret; apply _|].
  apply preserves_bind; [apply _ | by apply lint_frame_emit |].
  intros _. apply preserves_for_gen; [apply _|].
  apply lint_frame_record_match.
Qed.

(** X7: [lint] never drops a diagnostic: every line of the instance's
    dict keeps its list, with more entries at its end at most, and the
    code, the file name and what [__init__] set are as they were, whatever
    the tool prints and also when [lint] raises. *)
Theorem lint_keeps_diagnostics `{Host} (o : nat) (w : World) (self : Linter)
    (d : Errors) :
  objects w !! o = Some self → errors self = Some d →
  ∃ self' d',
    objects (lint o w).2 !! o = Some self' ∧ errors self' = Some d'
    ∧ (∀ line l, d !! line = Some l → ∃ more, d' !! line = Some (l ++ more)%list)
    ∧ code self' = code self ∧ filename self' = filename self
    ∧ static self' = static self.
Proof.
  intros Hself Hd. destruct (lint_preserves o w) as [_ _ _ _ _ _ _ _ Hgrow _].
  rewrite Hself in Hgrow. inversion Hgrow as [s s' Hs Heq1 Heq2|]; subst.
  destruct Hs as [Hstatic Hcode Hfile Herr _ _].
  rewrite Hd in Herr. unfold errors_grow in Herr.
  destruct (errors s') as [d'|] eqn:Hd'; [|done].
  by exists s', d'.
Qed.

Lemma lint_keeps_diagnostics_witness :
  ∃ self' d',
    objects (lint (H := one_diagnostic) 0 idle_world).2 !! 0%nat = Some self'
    ∧ errors self' = Some d'
    ∧ ∃ more, d' !! 2 = Some ([(VInt 4, "old")] ++ more)%list.
Proof.
  destruct (lint_keeps_diagnostics (H := one_diagnostic) 0 idle_world
              idle_linter {[ 2 := [(VInt 4, "old")] ]})
    as (self' & d' & Hself & Hd & Hgrow & _); [reflexivity | reflexivity |].
  exists self', d'. split; [exact Hself|]. split; [exact Hd|].
  apply Hgrow. reflexivity.
Defined.

(** X8: [lint] on one instance changes no other instance, no dict object,
    nothing of [persist], makes no object and does not call the callback,
    whatever the tool prints and also when it raises. *)
Theorem lint_touches_own_instance_only `{Host} (o : nat) (w : World) :
  (∀ o', o' ≠ o → objects (lint o w).2 !! o' = objects w !! o')
  ∧ dicts (lint o w).2 = dicts w
  ∧ linters (lint o w).2 = linters w
  ∧ views (lint o w).2 = views w
  ∧ languages (lint o w).2 = languages w
  ∧ next_object (lint o w).2 = next_object w
  ∧ callbacks (events (lint o w).2) = callbacks (events w).
Proof.
  destruct (lint_preserves o w) as [? ? ? ? ? ? ? ? ? Hlog].
  repeat split; try done. by apply log_extends_callbacks.
Qed.

(** ** [lint]: what it does with the output *)

(** [lint] from the call of the tool on, for a command that is not
    computed. *)
Lemma lint_static_cmd `{Host} (w : World) (o : nat) (self : Linter)
    (cv : CmdVal) (text : string) :
  objects w !! o = Some self →
  lang_truthy (language (cls self)) = true →
  regex_truthy (self_regex self) = true →
  cmd (cls self) = CmdStatic cv → cmdval_truthy cv = true →
  code self = Some text →
  opt_truthy (tempfile_suffix (cls self)) = false →
  lint o w
  = (let output := util_communicate (as_tuple cv) text in
     let w1 := with_event (Communicate (as_tuple cv) text) w in
     if negb (str_truthy output) then (Ok (), w1)
     else for_gen (find_errors (multiline (cls self)) (self_regex self) output)
            (record_match o)
            (with_event (DebugOutput (name (cls self)) output) w1)).
Proof.
  intros Ho Hlang Hre Hcmd Hcv Hcode Htmp. unfold lint.
  rewrite (bind_get_object _ _ _ _ Ho), Hlang, Hcmd, Hre.
  change (cmd_truthy (CmdStatic cv)) with (cmdval_truthy cv).
  rewrite Hcv, Hcode. cbn [andb negb].
  unfold run. rewrite Htmp. unfold communicate. run_m. cbv zeta.
  by destruct (negb _).
Qed.

Lemma for_gen_no_match `{Host} (o : nat) {A} (f : A → result RawMatch)
    (l : list A) (w : World) :
  (∀ a, a ∈ l → f a = Ok no_match) →
  for_gen (yield_each f l) (record_match o) w = (Ok (), w).
Proof.
  induction l as [|a l IH]; intros Hall; [done|].
  cbn [yield_each]. rewrite (Hall a) by (by left). cbn [for_gen].
  unfold mbind, M_bind. cbn. apply IH. intros b Hb. apply Hall. by right.
Qed.

(** X9: when the tool prints nothing, or prints lines of which the
    pattern matches none, [lint] returns and leaves the diagnostics and the
    marks of the instance as they were: only the call of the tool, and the
    output if there is one, are logged. *)
Theorem lint_nothing_matched `{Host} (w : World) (o : nat) (self : Linter)
    (p : Pattern) (cv : CmdVal) (text : string) :
  objects w !! o = Some self →
  lang_truthy (language (cls self)) = true →
  self_regex self = RePat p →
  cmd (cls self) = CmdStatic cv → cmdval_truthy cv = true →
  code self = Some text →
  opt_truthy (tempfile_suffix (cls self)) = false →
  multiline (cls self) = false →
  (∀ line, line ∈ splitlines (util_communicate (as_tuple cv) text) →
           re_match p (strip line) = None) →
  (lint o w).1 = Ok ()
  ∧ objects (lint o w).2 = objects w
  ∧ events (lint o w).2
    = (events w ++ Communicate (as_tuple cv) text ::
        if str_truthy (util_communicate (as_tuple cv) text)
        then [DebugOutput (name (cls self)) (util_communicate (as_tuple cv) text)]
        else [])%list.
Proof.
  intros Ho Hlang Hre Hcmd Hcv Hcode Htmp Hmulti Hnone.
  rewrite (lint_static_cmd w o self cv text) by (by rewrite ?Hre).
  cbv zeta. destruct (str_truthy _); cbn [negb]; [|done].
  rewrite Hmulti, Hre. unfold find_errors.
  rewrite for_gen_no_match.
  - cbn. by rewrite <- app_assoc.
  - intros line Hline. unfold match_error. by rewrite (Hnone line Hline).
Qed.

Lemma lint_nothing_matched_witness :
  (lint (H := Sample.host (λ _ _, "all good")) 0 ready_world).1 = Ok ()
  ∧ objects (lint (H := Sample.host (λ _ _, "all good")) 0 ready_world).2
    = objects ready_world.
Proof.
  destruct (lint_nothing_matched (H := Sample.host (λ _ _, "all good"))
              ready_world 0 ready_linter (Sample.line_col_error 0)
              (CmdSeq ["php"; "-l"]) php_code) as (Hok & Hobj & _);
    try reflexivity; [|by split].
  intros line Hline. vm_compute in Hline.
  apply list_elem_of_singleton in Hline as ->. reflexivity.
Defined.

(** X10: [lint] on an instance that [reset] has not given its code raises
    [AttributeError] before the tool is called, when the checker has its
    language, command and pattern and the command is not empty; the world
    is as it was. *)
Theorem lint_before_reset_raises `{Host} (w : World) (o : nat) (self : Linter)
    (cv : CmdVal) :
  objects w !! o = Some self →
  lang_truthy (language (cls self)) = true →
  regex_truthy (self_regex self) = true →
  cmd (cls self) = CmdStatic cv → cmdval_truthy cv = true →
  code self = None →
  lint o w = (Raise AttributeError, w).
Proof.
  intros Ho Hlang Hre Hcmd Hcv Hcode. unfold lint.
  rewrite (bind_get_object _ _ _ _ Ho), Hlang, Hcmd, Hre.
  change (cmd_truthy (CmdStatic cv)) with (cmdval_truthy cv).
  by rewrite Hcv, Hcode.
Qed.

Lemma lint_before_reset_raises_witness :
  lint (H := one_diagnostic) 0 php_world = (Raise AttributeError, php_world).
Proof.
  apply (lint_before_reset_raises (H := one_diagnostic) php_world 0 php_linter
           (CmdSeq ["php"; "-l"])); reflexivity.
Defined.

(** X11: [lint] on a checker with a [tempfile_suffix] raises [TypeError]
    and calls no tool: [run] calls [tmpfile] without the argument [code],
    which [tmpfile] requires. The world is as it was. *)
Theorem lint_tempfile_suffix_raises `{Host} (w : World) (o : nat)
    (self : Linter) (cv : CmdVal) (text : string) :
  objects w !! o = Some self →
  lang_truthy (language (cls self)) = true →
  regex_truthy (self_regex self) = true →
  cmd (cls self) = CmdStatic cv → cmdval_truthy cv = true →
  code self = Some text →
  opt_truthy (tempfile_suffix (cls self)) = true →
  lint o w = (Raise TypeError, w).
Proof.
  intros Ho Hlang Hre Hcmd Hcv Hcode Htmp. unfold lint.
  rewrite (bind_get_object _ _ _ _ Ho), Hlang, Hcmd, Hre.
  change (cmd_truthy (CmdStatic cv)) with (cmdval_truthy cv).
  rewrite Hcv, Hcode. cbn [andb negb]. unfold run. by rewrite Htmp.
Qed.

Lemma lint_tempfile_suffix_raises_witness :
  lint (H := one_diagnostic) 0 tmpfile_world = (Raise TypeError, tmpfile_world).
Proof.
  apply (lint_tempfile_suffix_raises (H := one_diagnostic) tmpfile_world 0
           tmpfile_linter (CmdStr "tmp") "x = 1"); reflexivity.
Defined.

(** ** [error] *)

(** X12: [error] puts [(col or 0, str(error))] at the end of the list of
    its line, which it makes when the line has none, and leaves the other
    lines as they are; a column [None] or [''] is recorded as 0 and a
    message [None] as ['None']. On an instance whose [errors] is still
    [None] it raises [TypeError]. *)
Theorem error_appends (o : nat) (line : Z) (col err : value)
    (w : World) (s : Linter) :
  objects w !! o = Some s →
  match errors s with
  | Some d =>
      (error o line col err w).1 = Ok ()
      ∧ ∃ s' d', objects (error o line col err w).2 !! o = Some s'
          ∧ errors s' = Some d'
          ∧ d' !! line = Some (default [] (d !! line)
                               ++ [(if truthy col then col else VInt 0, str err)])%list
          ∧ ∀ k, k ≠ line → d' !! k = d !! k
  | None => (error o line col err w).1 = Raise TypeError
  end.
Proof.
  intros Hs. destruct (errors s) as [d|] eqn:Hd.
  - rewrite (error_stored o line col err w s d) by done.
    split; [done|]. cbn [snd objects with_objects].
    rewrite !lookup_alter_eq, Hs. cbn [fmap option_fmap option_map].
    eexists _, _. split; [reflexivity|]. split; [reflexivity|].
    split; [apply lookup_insert_eq|].
    intros k Hk. by rewrite lookup_insert_ne.
  - unfold error, highlight_call, set_object, get_object. run_m.
    cbn [objects with_objects]. rewrite lookup_alter_eq, Hs.
    cbn [fmap option_fmap option_map errors set_highlight]. by rewrite Hd.
Qed.

Lemma error_appends_witness :
  ∃ s' d', objects (error 0 2 VNone VNone idle_world).2 !! 0%nat = Some s'
    ∧ errors s' = Some d'
    ∧ d' !! 2 = Some [(VInt 4, "old"); (VInt 0, "None")].
Proof.
  pose proof (error_appends 0 2 VNone VNone idle_world idle_linter eq_refl)
    as [_ (s' & d' & Hs & Hd & Hline & _)].
  by exists s', d'.
Defined.

(** ** [lint]: one diagnostic *)

(** X13: when the tool prints one line that the pattern matches, with the
    number [L] for [line], the number [C] for [col] and the message [msg],
    [lint] on a checker with a tab width of 1 or less records
    [(C - 1 or 0, msg)] at the end of the list of row [L - 1] and marks the
    range [(L - 1, C - 1)] and the line. *)
Theorem lint_records_diagnostic `{Host} (w : World) (o : nat) (self : Linter)
    (p : Pattern) (cv : CmdVal) (text line sl sc msg : string) (m : Match)
    (L C : Z) (d : Errors) :
  objects w !! o = Some self →
  lang_truthy (language (cls self)) = true →
  self_regex self = RePat p →
  cmd (cls self) = CmdStatic cv → cmdval_truthy cv = true →
  code self = Some text →
  opt_truthy (tempfile_suffix (cls self)) = false →
  multiline (cls self) = false →
  tab_width (cls self) ≤ 1 →
  errors self = Some d →
  splitlines (util_communicate (as_tuple cv) text) = [line] →
  re_match p (strip line) = Some m →
  groupdict m !! "line" = Some (Some sl) → int_of_str sl = Some L →
  groupdict m !! "col" = Some (Some sc) → sc ≠ "" → int_of_str sc = Some C →
  groupdict m !! "error" = Some (Some msg) →
  (lint o w).1 = Ok ()
  ∧ ∃ self', objects (lint o w).2 !! o = Some self'
      ∧ errors self'
        = Some (<[L - 1 := (default [] (d !! (L - 1))
                            ++ [(if C - 1 =? 0 then VInt 0 else VInt (C - 1), msg)])%list]> d)
      ∧ hl_calls (highlight self')
        = (hl_calls (highlight self) ++ [Range (L - 1) (VInt (C - 1)); Line (L - 1)])%list.
Proof.
  intros Ho Hlang Hre Hcmd Hcv Hcode Htmp Hmulti Htw Hd Hlines Hmatch
    Hline HL Hcol Hsc HC Hmsg.
  enough (Hlint : ∃ w', lint o w = (Ok (), w')
            ∧ ∃ self', objects w' !! o = Some self'
                ∧ errors self'
                  = Some (<[L - 1 := (default [] (d !! (L - 1))
                            ++ [(if C - 1 =? 0 then VInt 0 else VInt (C - 1), msg)])%list]> d)
                ∧ hl_calls (highlight self')
                  = (hl_calls (highlight self)
                     ++ [Range (L - 1) (VInt (C - 1)); Line (L - 1)])%list)
    by (destruct Hlint as (w' & -> & Hw'); done).
  eexists. split.
  { rewrite (lint_static_cmd w o self cv text) by (by rewrite ?Hre).
    cbv zeta.
    assert (Hout : str_truthy (util_communicate (as_tuple cv) text) = true).
    { apply str_truthy_true. intros Hempty. by rewrite Hempty in Hlines. }
    rewrite Hout. cbn [negb]. rewrite Hmulti, Hre. unfold find_errors.
    rewrite Hlines. cbn [yield_each]. unfold match_error. rewrite Hmatch.
    rewrite split_match_Some. cbv beta zeta. rewrite Hline, Hcol.
    cbn [group_value int].
    rewrite HL. cbn [mbind result_bind rbind].
    assert (Htruthy : truthy (VStr sc) = true) by (by apply str_truthy_true).
    rewrite Htruthy. cbn [int]. rewrite HC. cbn [mbind result_bind rbind].
    cbn [for_gen]. unfold record_match. cbn [rm_match rm_row rm_col rm_error].
    rewrite Hmsg. cbn [group_value].
    set (w1 := with_event _ (with_event _ w)).
    assert (Ho1 : objects w1 !! o = Some self) by done.
    unfold mbind at 1. unfold M_bind at 1. rewrite (bind_get_object _ _ _ _ Ho1).
    destruct (Z.ltb_spec 1 (tab_width (cls self))) as [|_]; [lia|].
    unfold highlight_call, set_object. run_m.
    set (w2 := with_objects _ _ w1).
    set (self2 := set_highlight
                    (hl_call_on (highlight self) (Range (L - 1) (VInt (C - 1)))) self).
    assert (Ho2 : objects w2 !! o = Some self2).
    { subst w2. cbn [objects with_objects]. by rewrite lookup_alter_eq, Ho1. }
    rewrite (error_stored o (L - 1) (VInt (C - 1)) (VStr msg) w2 self2 d) by done.
    subst w2 self2 w1. reflexivity. }
  cbn [objects with_objects with_event].
  rewrite !lookup_alter_eq, Ho. cbn [fmap option_fmap option_map].
  eexists. split; [reflexivity|]. split.
  - cbn [errors set_errors]. unfold or_zero. cbn [truthy str].
    by destruct (C - 1 =? 0).
  - cbn [highlight set_errors set_highlight hl_calls hl_call_on].
    by rewrite <- app_assoc.
Qed.

Lemma lint_records_diagnostic_witness :
  (lint (H := unused_variable) 0 pyflakes_ready).1 = Ok ()
  ∧ ∃ self', objects (lint (H := unused_variable) 0 pyflakes_ready).2 !! 0%nat
             = Some self'
      ∧ errors self' = Some (<[2 := [(VInt 4, "unused variable x")]]> ∅).
Proof.
  destruct (lint_records_diagnostic (H := unused_variable) pyflakes_ready 0
              pyflakes_linter (Sample.line_col_error 0) (CmdStr "pyflakes")
              "x = 1" "3:5: unused variable x" "3" "5" "unused variable x"
              {| span := (0, 22);
                 groupdict := <["line" := Some "3"]> (<["col" := Some "5"]>
                                (<["error" := Some "unused variable x"]> ∅)) |}
              3 5 ∅)
    as (Hok & self' & Hself & Herr & _); try reflexivity; try done.
  split; [exact Hok|]. exists self'. split; [exact Hself | exact Herr].
Defined.

(** ** [remove] *)

Lemma add_events_nil (w : World) : add_events [] w = w.
Proof. destruct w. unfold add_events. simpl. by rewrite app_nil_r. Qed.

Lemma add_events_app (es1 es2 : list Event) (w : World) :
  add_events es2 (add_events es1 w) = add_events (es1 ++ es2) w.
Proof. unfold add_events. simpl. by rewrite app_assoc. Qed.

Lemma clear_stored (o : nat) (pre : string) (w : World) (s : Linter) :
  objects w !! o = Some s →
  clear o pre w
  = (Ok (), with_event (HighlightClear (highlight s) (view_id (view s)) pre) w).
Proof. intros Hs. unfold clear. by rewrite (bind_get_object _ _ _ _ Hs). Qed.

Lemma clear_all_stored (l : list nat) (w : World) :
  (∀ o, o ∈ l → is_Some (objects w !! o)) →
  for_each l (λ o, clear o "lint") w = (Ok (), add_events (clear_events w l) w).
Proof.
  intros Hstored.
  enough (Hgen : ∀ w0, objects w0 = objects w →
            for_each l (λ o, clear o "lint") w0
            = (Ok (), add_events (clear_events w l) w0)) by (by apply Hgen).
  induction l as [|o l IH]; intros w0 Hw0.
  - cbn. by rewrite add_events_nil.
  - destruct (Hstored o) as [s Hs]; [by left|].
    assert (Hs0 : objects w0 !! o = Some s) by (by rewrite Hw0).
    cbn [for_each]. unfold mbind at 1. unfold M_bind at 1.
    rewrite (clear_stored o "lint" w0 s Hs0). rewrite IH; [|intros o' Ho'; apply Hstored; by right|done].
    change (with_event ?e w0) with (add_events [e] w0).
    rewrite add_events_app. unfold clear_events.
    cbn [omap list_omap]. by rewrite Hs.
Qed.

(** [remove] with every linter of the buffer stored. *)
Lemma remove_stored (vid : Z) (w : World) :
  (∀ ls o, linters w !! vid = Some ls → o ∈ ls → is_Some (objects w !! o)) →
  remove vid w
  = (Ok (),
     with_linters (delete vid)
       (add_events (clear_events w (elements (default ∅ (linters w !! vid)))) w)).
Proof.
  intros Hstored. unfold remove. rewrite bind_get_world.
  destruct (linters w !! vid) as [ls|] eqn:Hls.
  - unfold mbind, M_bind. rewrite clear_all_stored; [done|].
    intros o Ho%elem_of_elements. by eapply Hstored.
  - cbn. rewrite elements_empty. unfold clear_events. cbn [omap].
    rewrite add_events_nil. destruct w. unfold with_linters. simpl in *.
    by rewrite delete_id.
Qed.

(** X14: [remove] clears the marks of every linter of the buffer, each in
    its view, and then deletes the buffer's entry of [persist.linters];
    the entries of the other buffers, the instances and the views are as
    they were, and a second [remove] does nothing. For a buffer without
    entry it does nothing at all. *)
Theorem remove_deletes_entry (vid : Z) (w : World) :
  (∀ ls o, linters w !! vid = Some ls → o ∈ ls → is_Some (objects w !! o)) →
  (remove vid w).1 = Ok ()
  ∧ linters (remove vid w).2 = delete vid (linters w)
  ∧ objects (remove vid w).2 = objects w
  ∧ views (remove vid w).2 = views w
  ∧ events (remove vid w).2
    = (events w ++ clear_events w (elements (default ∅ (linters w !! vid))))%list
  ∧ remove vid (remove vid w).2 = (Ok (), (remove vid w).2)
  ∧ (linters w !! vid = None → remove vid w = (Ok (), w)).
Proof.
  intros Hstored. split; [by rewrite remove_stored|].
  split; [by rewrite remove_stored|]. split; [by rewrite remove_stored|].
  split; [by rewrite remove_stored|]. split; [by rewrite remove_stored|].
  split.
  - rewrite (remove_stored vid w Hstored). cbn [snd].
    unfold remove. rewrite bind_get_world. cbn [linters with_linters add_events].
    by rewrite lookup_delete_eq.
  - intros Hnone. unfold remove. rewrite bind_get_world. by rewrite Hnone.
Qed.

Lemma remove_deletes_entry_witness :
  linters (remove 7 php_world).2 !! 7 = None
  ∧ events (remove 7 php_world).2
    = [HighlightClear {| hl_args := None; hl_calls := [] |} 7 "lint"].
Proof.
  destruct (remove_deletes_entry 7 php_world) as (_ & Hlin & _ & _ & Hev & _).
  - intros ls o [= <-] ->%elem_of_singleton. by eexists.
  - rewrite Hlin, Hev. split; [apply lookup_delete_eq | reflexivity].
Defined.

(** ** [assign]: a buffer without syntax, and new instances *)

(** X15: for a view whose syntax setting is missing, or does not name a
    grammar file, [assign] stores the view, clears the marks of the
    buffer's linters and deletes the buffer's entry: a buffer without
    resolved syntax has no entry, not an empty set. It returns [None] and
    makes no instance. *)
Theorem assign_without_syntax `{Host} (v : View) (reassign : bool) (w : World) :
  (view_syntax v = None
   ∨ ∃ label, view_syntax v = Some label ∧ SYNTAX_RE_search label = None) →
  (∀ ls o, linters w !! view_id v = Some ls → o ∈ ls → is_Some (objects w !! o)) →
  (assign v reassign w).1 = Ok None
  ∧ linters (assign v reassign w).2 = delete (view_id v) (linters w)
  ∧ views (assign v reassign w).2 = <[view_id v := v]> (views w)
  ∧ objects (assign v reassign w).2 = objects w
  ∧ next_object (assign v reassign w).2 = next_object w.
Proof.
  intros Hsyn Hstored.
  assert (Heq : assign v reassign w
                = (remove (view_id v);; mret None) (with_views <[view_id v := v]> w)).
  { unfold assign. cbv zeta. rewrite bind_modify.
    destruct Hsyn as [-> | (label & -> & Hsearch)]; [done|].
    cbn [opt_truthy default from_option id]. rewrite Hsearch.
    destruct (str_truthy label); done. }
  rewrite Heq. unfold mbind, M_bind.
  rewrite remove_stored by done. by repeat split.
Qed.

Lemma assign_without_syntax_witness :
  (assign (H := one_diagnostic)
     {| view_id := 7; view_syntax := Some "Plain text"; view_file_name := None |}
     false php_world).1 = Ok None
  ∧ linters (assign (H := one_diagnostic)
     {| view_id := 7; view_syntax := Some "Plain text"; view_file_name := None |}
     false php_world).2 !! 7 = None.
Proof.
  destruct (assign_without_syntax (H := one_diagnostic)
              {| view_id := 7; view_syntax := Some "Plain text";
                 view_file_name := None |} false php_world)
    as (Hres & Hlin & _).
  - right. by exists "Plain text".
  - intros ls o [= <-] ->%elem_of_singleton. by eexists.
  - rewrite Hres, Hlin. split; [done | apply lookup_delete_eq].
Defined.

(** [__init__]: the fields of the new object. *)
Lemma init_fresh `{Host} (c : LinterClass) (v : View) (syn : string) (w : World) :
  ∃ self w0,
    __init__ c v syn (view_file_name v) w
    = (Ok (next_object w),
       with_objects <[next_object w := self]> (S (next_object w)) w0)
    ∧ fresh_instance c v syn self ∧ objects w0 = objects w
    ∧ linters w0 = linters w ∧ views w0 = views w
    ∧ next_object w0 = next_object w.
Proof.
  unfold __init__.
  destruct (str_truthy (regex c) && negb (bool_decide (is_Some _)))%bool;
    run_m; do 2 eexists; (split; [reflexivity | by repeat split]).
Qed.

(** The loop over the classes makes one object per class that can lint
    the syntax, with the next free identities in the order of the
    classes, and keeps the objects that were there. *)
Lemma instantiate_fresh `{Host} (classes : list (string * LinterClass))
    (v : View) (syn : string) (acc : gset nat) (w : World) :
  ∃ w',
    instantiate classes v syn acc w
    = (Ok (acc ∪ list_to_set (seq (next_object w)
                                (length (matching classes syn)))), w')
    ∧ next_object w' = (next_object w + length (matching classes syn))%nat
    ∧ (∀ o, (o < next_object w)%nat → objects w' !! o = objects w !! o)
    ∧ (∀ i c, matching classes syn !! i = Some c →
         ∃ s, objects w' !! (next_object w + i)%nat = Some s
              ∧ fresh_instance c v syn s)
    ∧ linters w' = linters w ∧ views w' = views w.
Proof.
  revert acc w. induction classes as [|[n c] rest IH]; intros acc w.
  - exists w. cbn. rewrite (right_id_L ∅ (∪)). split; [done|]. split; [lia|].
    split; [done|]. split; [by intros i c [=] | done].
  - cbn [instantiate]. unfold matching in *. cbn [fmap list_fmap snd List.filter].
    destruct (can_lint c syn) eqn:Hcan.
    + destruct (init_fresh c v syn w)
        as (self & w0 & Hinit & Hfresh & Hobj & Hlin & Hviews & Hnext).
      unfold mbind at 1. unfold M_bind at 1. rewrite Hinit.
      destruct (IH ({[next_object w]} ∪ acc)
                   (with_objects <[next_object w := self]> (S (next_object w)) w0))
        as (w' & Hrest & Hnext' & Hold & Hnew & Hlin' & Hviews').
      cbn [next_object with_objects objects] in *.
      exists w'. rewrite Hrest. cbn [length seq list_to_set].
      split.
      { by rewrite (comm_L (∪) {[next_object w]} acc), <- (assoc_L (∪)). }
      split; [lia|]. split.
      { intros o Ho. rewrite Hold by lia.
        rewrite lookup_insert_ne by lia. by rewrite Hobj. }
      split; [|by rewrite Hlin', Hviews'].
      intros [|i] c' Hc'.
      * injection Hc' as <-. exists self. split; [|done].
        rewrite Nat.add_0_r, Hold by lia. apply lookup_insert_eq.
      * destruct (Hnew i c' Hc') as (s & Hs & Hfs). exists s. split; [|done].
        by replace (next_object w + S i)%nat with (S (next_object w) + i)%nat by lia.
    + apply IH.
Qed.

(** X16: for a view whose syntax names a grammar file, [assign] with
    [reassign], or for a buffer that has no entry, makes one instance for
    each registered class that can lint the syntax and no other, with the
    identities that were free, each bound to the view, the syntax and the
    file name of the view and without diagnostics or code; the set of them
    becomes the buffer's entry and is returned, and the instances that
    were there before are not changed. *)
Theorem assign_makes_instances `{Host} (v : View) (reassign : bool) (w : World)
    (label syn : string) :
  view_syntax v = Some label →
  SYNTAX_RE_search label = Some syn →
  reassign = true ∨ linters w !! view_id v = None →
  let classes := matching (map_to_list (languages w)) syn in
  let ls : gset nat := list_to_set (seq (next_object w) (length classes)) in
  (assign v reassign w).1 = Ok (Some ls)
  ∧ linters (assign v reassign w).2 = <[view_id v := ls]> (linters w)
  ∧ next_object (assign v reassign w).2 = (next_object w + length classes)%nat
  ∧ (∀ o, (o < next_object w)%nat →
          objects (assign v reassign w).2 !! o = objects w !! o)
  ∧ (∀ i c, classes !! i = Some c →
       ∃ s, objects (assign v reassign w).2 !! (next_object w + i)%nat = Some s
            ∧ fresh_instance c v syn s).
Proof.
  intros Hlabel Hsearch Hnew. cbv zeta.
  destruct (SYNTAX_RE_search_Some _ _ Hsearch) as [Hl Hs].
  destruct (instantiate_fresh (map_to_list (languages w)) v syn ∅
              (with_views <[view_id v := v]> w))
    as (w' & Hinst & Hnext & Hold & Hfresh & Hlin & Hviews).
  assert (Heq : assign v reassign w
                = (Ok (Some (list_to_set (seq (next_object w)
                      (length (matching (map_to_list (languages w)) syn))))),
                   with_linters <[view_id v :=
                      list_to_set (seq (next_object w)
                        (length (matching (map_to_list (languages w)) syn)))]> w')).
  { unfold assign. cbv zeta. rewrite bind_modify, Hlabel.
    change (opt_truthy (Some label)) with (str_truthy label). rewrite Hl.
    cbn [negb default from_option id]. rewrite Hsearch.
    cbn [default from_option id]. rewrite Hs, bind_get_world.
    cbn [linters with_views].
    assert (Hhandled :
      match linters w !! view_id v with
      | Some ls0 =>
          if (negb (bool_decide (ls0 = ∅)) && negb reassign)%bool
          then handles_syntax (elements ls0) syn
          else mret false
      | None => mret false
      end = mret false).
    { destruct Hnew as [-> | ->]; [|done].
      destruct (linters w !! view_id v); [|done]. by rewrite andb_false_r. }
    rewrite Hhandled. rewrite bind_mret. cbn [languages with_views] in *.
    unfold mbind at 1. unfold M_bind at 1. rewrite Hinst.
    cbn [next_object with_views]. rewrite (left_id_L ∅ (∪)). reflexivity. }
  rewrite Heq. cbn [fst snd linters with_linters next_object objects].
  cbn [next_object with_views objects linters] in *.
  split; [done|]. split; [by rewrite Hlin|]. split; [done|]. by split.
Qed.

Lemma assign_makes_instances_witness :
  (assign (H := unused_variable) sample_view true (pyflakes_world 1)).1
  = Ok (Some {[0%nat]})
  ∧ ∃ s, objects (assign (H := unused_variable) sample_view true
                    (pyflakes_world 1)).2 !! 0%nat = Some s
         ∧ fresh_instance (pyflakes_class 1) sample_view "Python" s.
Proof.
  destruct (assign_makes_instances (H := unused_variable) sample_view true
              (pyflakes_world 1) "Packages/Python/Python.tmLanguage" "Python")
    as (Hres & _ & _ & _ & Hfresh); [reflexivity | reflexivity | by left |].
  split.
  - rewrite Hres. f_equal.
  - apply (Hfresh 0%nat (pyflakes_class 1)). reflexivity.
Defined.

(** ** [lint_view] *)

Lemma pass_frame_view (S : gset nat) (w w' : World) :
  pass_frame S w w' → view_frame S w w'.
Proof. intros []. split; try done. destruct pf_events0 as (more & -> & _). by apply prefix_app_r. Qed.

Lemma pass_frame_emit (S : gset nat) (e : Event) :
  is_callback e = false → preserves (pass_frame S) (emit e).
Proof.
  intros He w. split; try done. exists [e]. split; [done|].
  unfold callbacks. simpl. by rewrite He.
Qed.

Lemma pass_frame_set_object (S : gset nat) (o : nat) (f : Linter → Linter) :
  o ∈ S → (∀ s, static (f s) = static s) →
  preserves (pass_frame S) (set_object o f).
Proof.
  intros Ho Hf w. unfold set_object, modify. simpl. split; try done.
  - intros o' Ho'. simpl. rewrite lookup_alter_ne; [done|]. by intros ->.
  - intros o'. simpl. destruct (decide (o' = o)) as [->|Hne].
    + rewrite lookup_alter_eq. destruct (objects w !! o); simpl; [|done].
      by rewrite Hf.
    + by rewrite lookup_alter_ne.
Qed.

Lemma pass_frame_get_settings (S : gset nat) (c : LinterClass) :
  preserves (pass_frame S) (get_settings c).
Proof.
  intros w. unfold get_settings, defaults_or_new, new_dict. run_m.
  destruct (defaults c) as [l|]; [destruct (bool_decide (deref w l = ∅))|];
    by split.
Qed.

Lemma pass_frame_reset (S : gset nat) (o : nat) (code : string)
    (fname : option string) :
  o ∈ S → preserves (pass_frame S) (reset o code fname).
Proof.
  intros Ho. unfold reset.
  repeat (apply preserves_bind; [apply _ | by apply pass_frame_set_object | intros _]).
  by apply pass_frame_set_object.
Qed.

Lemma pass_frame_lint `{Host} (S : gset nat) (o : nat) :
  o ∈ S → preserves (pass_frame S) (lint o).
Proof.
  intros Ho. eapply preserves_weaken; [|apply lint_preserves].
  intros w w'. by apply lint_frame_pass.
Qed.

Lemma pass_frame_lint_sections `{Host} (S : gset nat) (o : nat) (code : string)
    (secs : list (Z * Z * Z)) (errs : Errors) :
  o ∈ S → preserves (pass_frame S) (lint_sections o code secs errs).
Proof.
  intros Ho. revert errs.
  induction secs as [|[[line_offset lft] rgt] rest IH]; intros errs;
    cbn [lint_sections].
  - apply preserves_mret; apply _.
  - apply preserves_bind; [apply _ | by apply pass_frame_set_object | intros _].
    apply preserves_bind; [apply _ | by apply pass_frame_set_object | intros _].
    apply preserves_bind; [apply _ | by apply pass_frame_set_object | intros _].
    apply preserves_bind; [apply _ | by apply pass_frame_lint | intros _].
    apply preserves_bind; [apply _ | apply preserves_get_object; apply _ |].
    intros linter.
    apply preserves_bind; [apply _ | apply preserves_lift; apply _ |].
    intros d. apply IH.
Qed.

Lemma pass_frame_lint_unscoped `{Host} (S : gset nat) (code fname : string)
    (o : nat) :
  o ∈ S → preserves (pass_frame S) (lint_unscoped code fname o).
Proof.
  intros Ho. unfold lint_unscoped, settings, dict_get.
  apply preserves_bind; [apply _ | |].
  { apply preserves_bind; [apply _ | apply preserves_get_object; apply _ |].
    intros self. apply pass_frame_get_settings. }
  intros s. apply preserves_bind; [apply _ | |].
  { apply preserves_bind; [apply _ | apply preserves_get_world; apply _ |].
    intros w. apply preserves_mret; apply _. }
  intros disable. destruct (truthy disable); [apply preserves_mret; apply _|].
  apply preserves_bind; [apply _ | apply preserves_get_object; apply _ |].
  intros self. destruct (negb _); [|apply preserves_mret; apply _].
  apply preserves_bind; [apply _ | by apply pass_frame_reset | intros _].
  by apply pass_frame_lint.
Qed.

Lemma pass_frame_lint_scoped `{Host} (S : gset nat) (code fname : string)
    (sections : gmap string (list (Z * Z * Z))) (sl : string * nat) :
  sl.2 ∈ S → preserves (pass_frame S) (lint_scoped code fname sections sl).
Proof.
  destruct sl as [sel o]. intros Ho. unfold lint_scoped.
  destruct (sections !! sel) as [secs|]; [|apply preserves_mret; apply _].
  apply preserves_bind; [apply _ | by apply pass_frame_reset | intros _].
  apply preserves_bind; [apply _ | by apply pass_frame_lint_sections |].
  intros errs. by apply pass_frame_set_object.
Qed.

(** The methods that only read. *)
Lemma names_of_reads (l : list nat) (w : World) : (names_of l w).2 = w.
Proof.
  induction l as [|o l IH]; [done|]. cbn [names_of]. unfold get_object. run_m.
  destruct (objects w !! o); [|done].
  destruct (names_of l w) as [[r|e] w']; simpl in *; by subst.
Qed.

Lemma with_selector_reads (l : list nat) (w : World) :
  (with_selector l w).2 = w
  ∧ ∀ sels, (with_selector l w).1 = Ok sels → sels.*2 = List.filter (scoped w) l.
Proof.
  induction l as [|o l [IHw IHs]]; [split; [done | by intros sels [= <-]]|].
  cbn [with_selector List.filter]. unfold get_object, scoped. run_m.
  destruct (objects w !! o) as [s|]; [|done].
  destruct (with_selector l w) as [[rest|e] w']; simpl in *; subst; [|done].
  split; [done|]. intros sels [= <-]. specialize (IHs rest eq_refl).
  destruct (opt_truthy (selector (cls s))); rewrite ?fmap_cons; cbn [snd];
    by rewrite IHs.
Qed.

Lemma scoped_static (w w' : World) (o : nat) :
  static <$> objects w' !! o = static <$> objects w !! o →
  scoped w' o = scoped w o.
Proof.
  unfold scoped.
  destruct (objects w' !! o) as [s'|], (objects w !! o) as [s|]; simpl; try done.
  intros [= Hcls _ _ _ _]. by rewrite Hcls.
Qed.

Lemma filter_ext_in (f g : nat → bool) (l : list nat) :
  (∀ a, f a = g a) → List.filter f l = List.filter g l.
Proof. intros Hfg. induction l as [|a l IH]; simpl; [done|]. by rewrite Hfg, IH. Qed.

Lemma bind_eq {A B} (m : M A) (k : A → M B) (w : World) :
  (m ≫= k) w
  = match m w with
    | (Ok a, w') => k a w'
    | (Raise e, w') => (Raise e, w')
    end.
Proof. reflexivity. Qed.

Lemma view_frame_callback (S : gset nat) (w w' : World) (e : Event) :
  view_frame S w w' → view_frame S w (with_event e w').
Proof.
  intros []. split; try done. simpl. by apply prefix_app_r.
Qed.

(** [lint_view], stage by stage. *)
Lemma lint_view_spec `{Host} (vid : Z) (fname : option string) (code : string)
    (sections : gmap string (list (Z * Z * Z))) (w : World) :
  let S := default ∅ (linters w !! vid) in
  ∃ r w',
    lint_view vid fname code sections w = (r, w')
    ∧ view_frame S w w'
    ∧ (str_truthy code = false ∨ S = ∅ → r = Ok () ∧ w' = w)
    ∧ (str_truthy code = true → S ≠ ∅ →
         callbacks (events w')
         = (callbacks (events w)
            ++ match r with
               | Ok _ => [Callback (views w !! vid)
                            (elements S ++ List.filter (scoped w) (elements S))]
               | Raise _ => []
               end)%list).
Proof.
  cbv zeta. set (S := default ∅ (linters w !! vid)).
  assert (Hrefl : view_frame S w w) by (by split).
  unfold lint_view. rewrite bind_get_world.
  destruct (str_truthy code) eqn:Hcode; cbn [negb orb];
    [|exists (Ok ()), w; repeat split; done].
  destruct (linters w !! vid) as [ls|] eqn:Hls; cbn [is_Some];
    [|rewrite bool_decide_eq_false_2 by (by intros [? ?]); cbn [negb];
      exists (Ok ()), w; repeat split; done].
  rewrite bool_decide_eq_true_2 by (by eexists). cbn [negb]. cbv zeta.
  cbn [default from_option id] in *. subst S.
  destruct (decide (elements ls = [])) as [Hempty|Hne].
  { rewrite bool_decide_eq_true_2 by done. exists (Ok ()), w.
    split; [done|]. split; [done|]. split; [done|].
    intros _ Hls'. by apply elements_empty_inv, leibniz_equiv in Hempty. }
  rewrite bool_decide_eq_false_2 by done.
  assert (Hnot : ¬ (true = false ∨ ls = ∅)).
  { intros [ | -> ]; [done|]. by rewrite elements_empty in Hne. }
  set (fname' := default "" (or_else fname (Some "untitled"))).
  (* the names *)
  rewrite bind_eq. pose proof (names_of_reads (elements ls) w) as Hnames.
  destruct (names_of (elements ls) w) as [[names|e] w0]; simpl in Hnames; subst w0.
  2: { exists (Raise e), w. split; [done|]. split; [done|]. split; [by intros ?%Hnot|].
       intros _ _. by rewrite app_nil_r. }
  rewrite bind_eq. unfold emit at 1, modify at 1.
  set (w1 := with_event (DebugLint fname' names) w).
  assert (H1 : pass_frame ls w w1) by (by apply pass_frame_emit).
  (* the first loop *)
  rewrite bind_eq.
  assert (H3 : pass_frame ls w1
                 (for_each (elements ls) (lint_unscoped code fname') w1).2).
  { apply (preserves_for_each (pass_frame ls) (elements ls)
             (lint_unscoped code fname')).
    intros o Ho%elem_of_elements. by apply pass_frame_lint_unscoped. }
  destruct (for_each (elements ls) (lint_unscoped code fname') w1) as [[[]|e] w3];
    simpl in H3.
  2: { exists (Raise e), w3. split; [done|].
       assert (H13 : pass_frame ls w w3) by (by etrans).
       split; [by apply pass_frame_view|]. split; [by intros ?%Hnot|].
       intros _ _. rewrite app_nil_r.
       by apply log_extends_callbacks, H13. }
  assert (H03 : pass_frame ls w w3) by (by etrans).
  (* the selectors *)
  rewrite bind_eq. unfold get_selectors, get_linters.
  rewrite bind_eq, bind_get_world. unfold mret at 1, M_ret at 1.
  rewrite (pf_linters _ _ _ H03), Hls.
  destruct (with_selector_reads (elements ls) w3) as [Hw3 Hsels].
  destruct (with_selector (elements ls) w3) as [[sels|e] w3'];
    simpl in Hw3, Hsels; subst w3'.
  2: { exists (Raise e), w3. split; [done|].
       split; [by apply pass_frame_view|]. split; [by intros ?%Hnot|].
       intros _ _. rewrite app_nil_r.
       by apply log_extends_callbacks, H03. }
  specialize (Hsels sels eq_refl).
  (* the second loop *)
  rewrite bind_eq.
  assert (H5 : pass_frame ls w3
                 (for_each sels (lint_scoped code fname' sections) w3).2).
  { apply (preserves_for_each (pass_frame ls) sels
             (lint_scoped code fname' sections)).
    intros sl Hsl. apply pass_frame_lint_scoped.
    assert (Hin : sl.2 ∈ sels.*2) by (apply list_elem_of_fmap; by exists sl).
    rewrite Hsels in Hin. apply list_elem_of_In, List.filter_In in Hin as [Hin _].
    by apply elem_of_elements, list_elem_of_In. }
  destruct (for_each sels (lint_scoped code fname' sections) w3) as [[[]|e] w5];
    simpl in H5.
  2: { exists (Raise e), w5. split; [done|].
       assert (H05 : pass_frame ls w w5) by (by etrans).
       split; [by apply pass_frame_view|]. split; [by intros ?%Hnot|].
       intros _ _. rewrite app_nil_r.
       by apply log_extends_callbacks, H05. }
  assert (H05 : pass_frame ls w w5) by (by etrans).
  (* the callback *)
  unfold get_view. rewrite bind_eq, bind_get_world.
  unfold mret at 1, M_ret at 1. unfold emit, modify.
  eexists _, _. split; [reflexivity|].
  split; [by apply view_frame_callback, pass_frame_view|].
  split; [by intros ?%Hnot|].
  intros _ _. cbn [events with_event]. unfold callbacks.
  rewrite List.filter_app. cbn [List.filter is_callback].
  fold (callbacks (events w5)). rewrite (log_extends_callbacks _ _ (pf_events _ _ _ H05)).
  rewrite (pf_views _ _ _ H05), Hsels.
  do 4 f_equal. apply filter_ext_in. intros o.
  apply scoped_static, (pf_static _ _ _ H03).
Qed.

(** X17: [lint_view] does nothing, and does not call the callback, when
    the code is empty, when the buffer has no entry in [persist.linters]
    and when its entry is the empty set. *)
Theorem lint_view_noop `{Host} (vid : Z) (fname : option string) (code : string)
    (sections : gmap string (list (Z * Z * Z))) (w : World) :
  code = "" ∨ linters w !! vid = None ∨ linters w !! vid = Some ∅ →
  lint_view vid fname code sections w = (Ok (), w).
Proof.
  intros Hnoop.
  destruct (lint_view_spec vid fname code sections w)
    as (r & w' & -> & _ & Hsame & _).
  destruct Hsame as [-> ->]; [|done].
  destruct Hnoop as [-> | [-> | ->]]; [by left | by right | by right].
Qed.

Lemma lint_view_noop_witness :
  lint_view (H := one_diagnostic) 7 (Some "a.html") "" php_sections php_world
  = (Ok (), php_world)
  ∧ lint_view (H := one_diagnostic) 8 (Some "a.html") php_code php_sections
      php_world
    = (Ok (), php_world).
Proof.
  split.
  - apply (lint_view_noop (H := one_diagnostic)). by left.
  - apply (lint_view_noop (H := one_diagnostic)). right. by left.
Defined.

(** X18: a pass of [lint_view] over a buffer leaves [persist.linters],
    [persist.views], the classes and the user's settings as they were,
    makes no instance, changes no instance of another buffer's set and
    changes of no instance what [__init__] set (class, view, syntax,
    pattern); the log only grows. This holds whatever the tools print and
    also when a linter raises. *)
Theorem lint_view_keeps_assignment `{Host} (vid : Z) (fname : option string)
    (code : string) (sections : gmap string (list (Z * Z * Z))) (w : World) :
  let w' := (lint_view vid fname code sections w).2 in
  linters w' = linters w ∧ views w' = views w
  ∧ languages w' = languages w ∧ settings_linters w' = settings_linters w
  ∧ next_object w' = next_object w
  ∧ (∀ o, o ∉ default ∅ (linters w !! vid) → objects w' !! o = objects w !! o)
  ∧ (∀ o, static <$> objects w' !! o = static <$> objects w !! o)
  ∧ events w `prefix_of` events w'.
Proof.
  cbv zeta. destruct (lint_view_spec vid fname code sections w)
    as (r & w' & -> & [] & _). by repeat split.
Qed.

(** X19: a pass of [lint_view] that has linters to run calls the callback
    once when it returns, at its end, with the view of the buffer and the
    list of the buffer's linters followed by those of them that have a
    selector, which are thus listed twice; when a linter raises, the pass
    ends without calling the callback. *)
Theorem lint_view_callback `{Host} (vid : Z) (fname : option string)
    (code : string) (sections : gmap string (list (Z * Z * Z))) (w : World)
    (ls : gset nat) :
  code ≠ "" → linters w !! vid = Some ls → ls ≠ ∅ →
  callbacks (events (lint_view vid fname code sections w).2)
  = (callbacks (events w)
     ++ match (lint_view vid fname code sections w).1 with
        | Ok _ => [Callback (views w !! vid)
                     (elements ls ++ List.filter (scoped w) (elements ls))]
        | Raise _ => []
        end)%list.
Proof.
  intros Hcode Hls Hne.
  destruct (lint_view_spec vid fname code sections w)
    as (r & w' & -> & _ & _ & Hcb).
  rewrite Hls in Hcb. apply Hcb; [by apply str_truthy_true | done].
Qed.

Lemma lint_view_callback_witness :
  callbacks (events (lint_view (H := one_diagnostic) 7 (Some "a.html") php_code
                       php_sections php_world).2)
  = [Callback (Some html_view) [0%nat; 0%nat]].
Proof.
  rewrite (lint_view_callback (H := one_diagnostic) 7 (Some "a.html") php_code
             php_sections php_world {[0%nat]}); [reflexivity|done|reflexivity|].
  intros Hempty. apply (f_equal elements) in Hempty. vm_compute in Hempty.
  discriminate.
Defined.

(** ** [get_settings]: how calls compose *)

Lemma with_dicts_same (f : gmap nat (gmap string value) → gmap nat (gmap string value))
    (w : World) :
  f (dicts w) = dicts w → with_dicts f (next_dict w) w = w.
Proof. intros Hf. destruct w. unfold with_dicts. simpl in *. by rewrite Hf. Qed.

(** X20: for a class with a [defaults] dict that is not empty, a second
    [get_settings] returns the same dict and changes nothing: the user's
    settings are merged once. *)
Theorem get_settings_twice (w : World) (c : LinterClass) (l : nat)
    (d : gmap string value) :
  defaults c = Some l → dicts w !! l = Some d → d ≠ ∅ →
  (get_settings c w).1 = Ok l
  ∧ get_settings c (get_settings c w).2 = (Ok l, (get_settings c w).2).
Proof.
  intros Hdef Hd Hne. rewrite (get_settings_stocked w c l d) by done.
  split; [done|]. cbn [snd].
  set (u := default ∅ (settings_linters w !! name c)).
  erewrite get_settings_stocked; [|done| |by apply (union_nonempty_r u)].
  2: { cbn [dicts with_dicts]. by rewrite lookup_alter_eq, Hd. }
  f_equal. cbn [settings_linters with_dicts next_dict]. fold u.
  apply (with_dicts_same _ (with_dicts _ _ w)). cbn [dicts with_dicts].
  apply map_eq. intros i. destruct (decide (i = l)) as [->|Hi].
  - rewrite !lookup_alter_eq, Hd. simpl. unfold update.
    by rewrite (assoc_L (∪)), (idemp_L (∪)).
  - by rewrite !lookup_alter_ne.
Qed.

Lemma get_settings_twice_witness :
  get_settings bare_class (get_settings bare_class stocked_world).2
  = (Ok 0%nat, (get_settings bare_class stocked_world).2).
Proof.
  apply (get_settings_twice stocked_world bare_class 0 {[ "args" := VStr "-q" ]});
    [reflexivity | reflexivity |].
  intros Hempty. apply (f_equal (λ m, m !! "args")) in Hempty.
  vm_compute in Hempty. discriminate.
Defined.

(** X21: for a class whose [defaults] is [None] or an empty dict,
    [get_settings] returns a new dict that holds the user's settings of
    the checker and nothing else, and changes no dict that was there: what
    the user sets is not kept anywhere between calls. *)
Theorem get_settings_without_defaults (w : World) (c : LinterClass) :
  defaults c = None ∨ (∃ l, defaults c = Some l ∧ deref w l = ∅) →
  (get_settings c w).1 = Ok (next_dict w)
  ∧ deref (get_settings c w).2 (next_dict w)
    = default ∅ (settings_linters w !! name c)
  ∧ (∀ l, l ≠ next_dict w → dicts (get_settings c w).2 !! l = dicts w !! l)
  ∧ next_dict (get_settings c w).2 = S (next_dict w).
Proof.
  intros Hdef.
  assert (Heq : get_settings c w
    = (Ok (next_dict w),
       with_dicts (alter (λ d, update d (default ∅ (settings_linters w !! name c)))
                     (next_dict w))
         (S (next_dict w)) (with_dicts <[next_dict w := ∅]> (S (next_dict w)) w))).
  { unfold get_settings, defaults_or_new, new_dict. run_m.
    destruct Hdef as [-> | (l & -> & Hl)]; [done|].
    by rewrite Hl, bool_decide_eq_true_2. }
  rewrite Heq. cbn [fst snd]. split; [done|]. split; [|split; [|done]].
  - unfold deref. cbn [dicts with_dicts].
    rewrite lookup_alter_eq, lookup_insert_eq. simpl. unfold update.
    by rewrite (right_id_L ∅ (∪)).
  - intros l Hl. cbn [dicts with_dicts].
    by rewrite lookup_alter_ne, lookup_insert_ne.
Qed.

Lemma get_settings_without_defaults_witness :
  (get_settings bare_class bare_world).1 = Ok 1%nat
  ∧ deref (get_settings bare_class bare_world).2 1 = {[ "disable" := VBool true ]}.
Proof.
  destruct (get_settings_without_defaults bare_world bare_class)
    as (Hres & Hnew & _).
  - right. exists 0%nat. split; [reflexivity|]. vm_compute. reflexivity.
  - split; [exact Hres|]. etrans; [exact Hnew|]. vm_compute. reflexivity.
Defined.

(** X22: two classes that share one [defaults] dict that is not empty, as
    a class and a subclass that inherits the attribute, share what
    [get_settings] merges into it: after [get_settings] of the first, the
    settings of the second hold the user's settings of the first as well,
    under the user's settings of the second. *)
Theorem get_settings_shared_defaults (w : World) (c1 c2 : LinterClass)
    (l : nat) (d : gmap string value) :
  defaults c1 = Some l → defaults c2 = Some l →
  dicts w !! l = Some d → d ≠ ∅ →
  ∃ w1 w2,
    get_settings c1 w = (Ok l, w1) ∧ get_settings c2 w1 = (Ok l, w2)
    ∧ deref w2 l
      = default ∅ (settings_linters w !! name c2)
        ∪ (default ∅ (settings_linters w !! name c1) ∪ d).
Proof.
  intros Hdef1 Hdef2 Hd Hne. eexists _, _.
  split; [by apply (get_settings_stocked w c1 l d)|].
  split.
  - eapply get_settings_stocked; [done| |by apply union_nonempty_r].
    cbn [dicts with_dicts]. by rewrite lookup_alter_eq, Hd.
  - unfold deref. cbn [dicts with_dicts settings_linters].
    by rewrite !lookup_alter_eq, Hd.
Qed.

Lemma get_settings_shared_defaults_witness :
  ∃ w1 w2,
    get_settings parent_class family_world = (Ok 0%nat, w1)
    ∧ get_settings child_class w1 = (Ok 0%nat, w2)
    ∧ deref w2 0%nat !! "disable" = Some (VBool true).
Proof.
  destruct (get_settings_shared_defaults family_world parent_class child_class
              0 {[ "args" := VStr "-q" ]})
    as (w1 & w2 & H1 & H2 & Hd); [reflexivity | reflexivity | reflexivity | |].
  - intros Hempty. apply (f_equal (λ m, m !! "args")) in Hempty.
    vm_compute in Hempty. discriminate.
  - exists w1, w2. split; [exact H1|]. split; [exact H2|].
    rewrite Hd. vm_compute. reflexivity.
Defined.

(** ** Witnesses of properties stated above *)

Lemma assign_twice_witness :
  assign (H := unused_variable) sample_view false
    (assign (H := unused_variable) sample_view true (pyflakes_world 1)).2
  = (Ok None,
     with_views <[7 := sample_view]>
       (assign (H := unused_variable) sample_view true (pyflakes_world 1)).2).
Proof.
  apply (assign_twice (H := unused_variable) sample_view true (pyflakes_world 1)
           _ {[0%nat]}).
  - reflexivity.
  - intros Hempty. apply (f_equal elements) in Hempty. vm_compute in Hempty.
    discriminate.
Defined.

Lemma find_errors_multiline_occurrences_witness :
  length (yielded (find_errors true (RePat (Sample.line_col_error 8))
                     ("1:2: a" +:+ String LF "note" +:+ String LF "3:4: b")))
  = 2%nat.
Proof.
  replace 2%nat with
    (length (finditer (Sample.line_col_error 8)
               ("1:2: a" +:+ String LF "note" +:+ String LF "3:4: b")))
    by reflexivity.
  apply (find_errors_multiline_occurrences (Sample.line_col_error 8)).
  apply Forall_is_ok. vm_compute. reflexivity.
Defined.

Lemma lint_unscoped_disabled_witness :
  objects (lint_unscoped (H := one_diagnostic) "x = 2" "a.py" 0 disabled_world).2
  = objects disabled_world.
Proof.
  apply (lint_unscoped_disabled (H := one_diagnostic) "x = 2" "a.py" 0
           idle_linter disabled_world); [reflexivity|].
  intros l Hl. vm_compute in Hl. injection Hl as <-. vm_compute. reflexivity.
Defined.

Lemma split_match_no_line_group_raises_witness :
  split_match (Some (Sample.no_groups 0 1)) = Raise TypeError.
Proof. apply (split_match_no_line_group_raises (Sample.no_groups 0 1)). reflexivity. Defined.

Lemma can_lint_not_lowercase_witness :
  linter_can_lint (LangStr "Python") "Python" = false.
Proof. apply (can_lint_not_lowercase "Python" "Python"). discriminate. Defined.

(** ** A linter with a selector and one section *)

(** X28: for a linter with a selector whose sections are one region
    [(line_offset, left, right)], the pass resets the linter, runs it on
    [code[left:right]] with an empty dict of diagnostics, and leaves as its
    diagnostics those of that run with every row moved by [line_offset]:
    what an earlier pass recorded is gone. When the run raises, so does
    the pass, in the world the run left. *)
Theorem lint_scoped_one_section `{Host} (text fname : string)
    (sections : gmap string (list (Z * Z * Z))) (sel : string) (o : nat)
    (line_offset lft rgt : Z) (w : World) (s : Linter) :
  sections !! sel = Some [(line_offset, lft, rgt)] →
  objects w !! o = Some s →
  let w1 := (enter_region o text fname (line_offset, lft, rgt) w).2 in
  (∃ s1, objects w1 !! o = Some s1 ∧ code s1 = Some (slice text lft rgt)
         ∧ errors s1 = Some ∅)
  ∧ match lint o w1 with
    | (Ok _, w2) =>
        ∃ s2 d w3 s3 d3,
          objects w2 !! o = Some s2 ∧ errors s2 = Some d
          ∧ lint_scoped text fname sections (sel, o) w = (Ok (), w3)
          ∧ objects w3 !! o = Some s3 ∧ errors s3 = Some d3
          ∧ ∀ k, d3 !! k = d !! (k - line_offset)
    | (Raise e, w2) =>
        lint_scoped text fname sections (sel, o) w = (Raise e, w2)
    end.
Proof.
  intros Hsec Ho. cbv zeta.
  unfold lint_scoped. rewrite Hsec. cbn [lint_sections].
  unfold enter_region, reset, highlight_call, set_object. run_m.
  cbn [snd].
  match goal with
  | |- context [lint o ?W] => set (w1 := W)
  end.
  assert (Hs1 : ∃ s1, objects w1 !! o = Some s1
                  ∧ code s1 = Some (slice text lft rgt) ∧ errors s1 = Some ∅).
  { subst w1. cbn [objects with_objects].
    rewrite !lookup_alter_eq, Ho. cbn [fmap option_fmap option_map].
    by eexists. }
  split; [exact Hs1|]. destruct Hs1 as (s1 & Hs1 & _ & Herr1).
  pose proof (lint_preserves o w1) as [_ _ _ _ _ _ _ _ Hgrow _].
  destruct (lint o w1) as [[[]|e] w2]; [|done]. cbn [snd] in Hgrow.
  rewrite Hs1 in Hgrow. inversion Hgrow as [x s2 Hx Heq1 Hs2|]; subst x.
  symmetry in Hs2. destruct Hx as [_ _ _ Herr _ _]. rewrite Herr1 in Herr.
  unfold errors_grow in Herr. destruct (errors s2) as [d|] eqn:Hd; [|done].
  unfold get_object. rewrite Hs2, Hd. cbn [objects with_objects].
  eexists s2, d, _, _, _. split; [done|]. split; [done|].
  split; [reflexivity|]. cbn [snd objects with_objects].
  rewrite lookup_alter_eq, Hs2. cbn [fmap option_fmap option_map errors set_errors].
  split; [reflexivity|]. split; [reflexivity|].
  intros k. unfold shift_into.
  rewrite shift_list_lookup by apply NoDup_fst_map_to_list.
  rewrite list_to_map_to_list. by destruct (d !! (k - line_offset)).
Qed.

Lemma lint_scoped_one_section_witness :
  (∃ s1, objects (enter_region 0 php_code "a.html" (10, 0, 15) php_world).2 !! 0%nat
         = Some s1
     ∧ code s1 = Some (slice php_code 0 15) ∧ errors s1 = Some ∅)
  ∧ errors <$> objects (lint_scoped (H := one_diagnostic) php_code "a.html"
                          php_sections_10 ("source.php", 0%nat) php_world).2 !! 0%nat
    = Some (Some {[ 10 := [(VInt 0, "fresh")] ]}).
Proof.
  destruct (lint_scoped_one_section (H := one_diagnostic) php_code "a.html"
              php_sections_10 "source.php" 0 10 0 15 php_world php_linter)
    as [Hs1 _]; [reflexivity | reflexivity |].
  split; [exact Hs1 | vm_compute; reflexivity].
Defined.
